(** * Approvals API

    A shallow embedding of [main.py], the FastAPI service that creates, lists,
    approves and rejects approval items kept in the MongoDB collection
    [approvalitem], and the properties of its handlers.

    Conventions.
    - A Python [str] and a Python [bytes] are both a Rocq [string] (a list of
      8-bit characters); text outside ASCII is held in UTF-8.
    - A Python [dict] with string keys is a [gmap string _].
    - A [float] is a binary64 number, the standard library's [spec_float]
      at precision 53 and exponent bound 1024; it can be infinite or NaN.
    - A [datetime] is a [Z] (a point on the time line).
    - Exceptions and the mutable store are threaded by the monad [M]. *)

From Stdlib Require Import ZArith NArith Ascii String List SpecFloat.
From stdpp Require Import gmap strings list fin_maps sorting.

#[local] Set Warnings "-clear-no-such-hyp".

Local Open Scope Z_scope.
Local Open Scope string_scope.
Local Open Scope list_scope.

(** ** Exceptions and the state-and-exception monad *)

Inductive exn : Type :=
  | HTTPException (status_code : Z) (detail : string)
  | RequestValidationError
  | Exception (msg : string).

(** [str(e)] as far as the handlers look at it. *)
Definition exn_str (e : exn) : string :=
  match e with
  | HTTPException _ d => d
  | RequestValidationError => "validation error"
  | Exception m => m
  end.

Inductive outcome (A : Type) : Type :=
  | Return (a : A)
  | Raise (e : exn).
Arguments Return {A} a.
Arguments Raise {A} e.

(** A computation over a mutable state [S]: what was written before an
    exception stays written, as in Python. *)
Definition M (S A : Type) : Type := S → outcome A * S.

Definition ret {S A} (a : A) : M S A := λ s, (Return a, s).

Definition bind {S A B} (m : M S A) (k : A → M S B) : M S B :=
  λ s, match m s with
       | (Return a, s') => k a s'
       | (Raise e, s') => (Raise e, s')
       end.

Definition raise {S A} (e : exn) : M S A := λ s, (Raise e, s).
Definition get {S} : M S S := λ s, (Return s, s).
Definition modify {S} (f : S → S) : M S unit := λ s, (Return tt, f s).

(** [try: m except Exception as e: h e] *)
Definition try_except {S A} (m : M S A) (h : exn → M S A) : M S A :=
  λ s, match m s with
       | (Return a, s') => (Return a, s')
       | (Raise e, s') => h e s'
       end.

(** A computation that cannot touch the state. *)
Definition lift {S A} (o : outcome A) : M S A := λ s, (o, s).

Global Instance M_ret {S} : MRet (M S) := @ret S.
Global Instance M_bind {S} : MBind (M S) := λ A B k m, bind m k.

(** [for x in l: f x] *)
Fixpoint for_each {S A} (l : list A) (f : A → M S unit) : M S unit :=
  match l with
  | [] => ret tt
  | x :: l' => f x;; for_each l' f
  end.

(** ** bson: [ObjectId] *)

Definition bytes : Type := string.

(** The value of a hexadecimal digit (CPython's digit table, cut at 16). *)
Definition digit_value (c : ascii) : option N :=
  let n := N_of_ascii c in
  if (48 <=? n)%N && (n <=? 57)%N then Some (n - 48)%N
  else if (97 <=? n)%N && (n <=? 102)%N then Some (n - 87)%N
  else if (65 <=? n)%N && (n <=? 70)%N then Some (n - 55)%N
  else None.

(** ASCII white space: space, and tab to carriage return. *)
Definition isspace (c : ascii) : bool :=
  let n := N_of_ascii c in (n =? 32)%N || ((9 <=? n)%N && (n <=? 13)%N).

(** [bytes.fromhex]: white space before a pair of digits is skipped, the two
    digits of a pair are adjacent; anything else is a [ValueError]. *)
Fixpoint fromhex (s : string) : option bytes :=
  match s with
  | EmptyString => Some EmptyString
  | String c s' =>
      if isspace c then fromhex s'
      else
        match digit_value c, s' with
        | Some top, String c' s'' =>
            match digit_value c' with
            | Some bot => String (ascii_of_N (top * 16 + bot)) <$> fromhex s''
            | None => None
            end
        | _, _ => None
        end
  end.

Definition hexdigit (n : N) : ascii :=
  if (n <? 10)%N then ascii_of_N (48 + n) else ascii_of_N (87 + n).

(** [binascii.hexlify]: two lower-case digits for each byte. *)
Fixpoint hexlify (b : bytes) : string :=
  match b with
  | EmptyString => EmptyString
  | String c b' =>
      let n := N_of_ascii c in
      String (hexdigit (n / 16)) (String (hexdigit (n mod 16)) (hexlify b'))
  end.

Record ObjectId : Type := mkObjectId { binary : bytes }.

Global Instance ObjectId_eq_dec : EqDecision ObjectId.
Proof. solve_decision. Defined.

(** [ObjectId(s)] for a [str]: 24 characters that [bytes.fromhex] accepts;
    [None] stands for [InvalidId]. *)
Definition ObjectId_of_str (s : string) : option ObjectId :=
  if (String.length s =? 24)%nat then mkObjectId <$> fromhex s else None.

(** [str(o)] *)
Definition ObjectId_str (o : ObjectId) : string := hexlify (binary o).

(** The [i] low bytes of [n], most significant first. *)
Fixpoint big_endian (i : nat) (n : N) : bytes :=
  match i with
  | O => EmptyString
  | S i' => big_endian i' (n / 256) +:+ String (ascii_of_N (n mod 256)) EmptyString
  end.

(** [ObjectId()]: a new 12-byte identifier, drawn from the generator's
    counter. *)
Definition ObjectId_generate (counter : N) : ObjectId :=
  mkObjectId (big_endian 12 counter).

(** ** Floating-point numbers *)

Definition float : Type := spec_float.

(** The float nearest to an integer, ties to even; infinite beyond the
    range. *)
Definition float_of_Z (z : Z) : float := binary_normalize 53 1024 z 0 false.

Definition is_finite (f : float) : bool :=
  match f with
  | S754_zero _ | S754_finite _ _ _ => true
  | S754_infinity _ | S754_nan => false
  end.

(** [float(z)] for an [int] [z]; [None] is the [OverflowError] beyond the
    range. *)
Definition float_of_int (z : Z) : option float :=
  let f := float_of_Z z in if is_finite f then Some f else None.

(** [f >= 0] *)
Definition float_ge0 (f : float) : bool := SFleb (S754_zero false) f.


(** The place of a float in a sort: NaN first, then by value (for a float
    in canonical form, exponent then mantissa is the order of the values). *)
Definition float_key (f : float) : Z * Z * Z :=
  match f with
  | S754_nan => (-3, 0, 0)
  | S754_infinity true => (-2, 0, 0)
  | S754_finite true m e => (-1, - e, - Z.pos m)
  | S754_zero _ => (0, 0, 0)
  | S754_finite false m e => (1, e, Z.pos m)
  | S754_infinity false => (2, 0, 0)
  end.

Definition float_leb (x y : float) : bool :=
  let '(a1, b1, c1) := float_key x in
  let '(a2, b2, c2) := float_key y in
  ((a1 <? a2) || ((a1 =? a2) && ((b1 <? b2) || ((b1 =? b2) && (c1 <=? c2)))))%Z.

(** ** Documents and the collection *)

Inductive value : Type :=
  | VNone
  | VBool (b : bool)
  | VNum (f : float)
  | VStr (s : string)
  | VDate (t : Z).

(** A stored document: the identifier the store gave it under [_id], and its
    other fields. *)
Record document : Type := mkDocument {
  _id : ObjectId;
  fields : gmap string value
}.

(** [doc.get(k)] and [doc.get(k, dflt)] for a key other than [_id]. *)
Definition doc_get (d : document) (k : string) : value :=
  default VNone (fields d !! k).
Definition doc_get_default (d : document) (k : string) (dflt : value) : value :=
  default dflt (fields d !! k).

(** The filters the handlers pass to the collection: [{}], [{"status": s}]
    and [{"_id": o}]. *)
Inductive query : Type :=
  | QAll
  | QStatus (s : string)
  | QId (o : ObjectId).

Definition matches (q : query) (d : document) : bool :=
  match q with
  | QAll => true
  | QStatus s =>
      match fields d !! "status" with
      | Some (VStr s') => String.eqb s s'
      | _ => false
      end
  | QId o => bool_decide (_id d = o)
  end.

(** The order of BSON values across types: null, numbers, strings, booleans,
    dates; a missing field sorts as null. *)
Definition bson_rank (v : value) : Z :=
  match v with
  | VNone => 1
  | VNum _ => 2
  | VStr _ => 3
  | VBool _ => 8
  | VDate _ => 9
  end.

Definition bson_leb (a b : value) : bool :=
  match a, b with
  | VNone, VNone => true
  | VNum x, VNum y => float_leb x y
  | VStr x, VStr y => String.leb x y
  | VBool x, VBool y => implb x y
  | VDate x, VDate y => (x <=? y)%Z
  | _, _ => (bson_rank a <? bson_rank b)%Z
  end.

(** [d1] may stand before [d2] when sorting on [key] in descending order. *)
Definition sorted_desc (key : string) (d1 d2 : document) : Prop :=
  bson_leb (doc_get d2 key) (doc_get d1 key).

Global Instance sorted_desc_dec key d1 d2 : Decision (sorted_desc key d1 d2).
Proof. unfold sorted_desc. apply _. Defined.

(** [collection.find(q)] *)
Definition find (q : query) (coll : list document) : list document :=
  List.filter (matches q) coll.

(** [cursor.sort(key, -1)] *)
Definition sort_descending (key : string) (docs : list document) : list document :=
  merge_sort (sorted_desc key) docs.

(** [collection.find_one(q)] *)
Definition find_one (q : query) (coll : list document) : option document :=
  head (find q coll).

(** [collection.count_documents(q)] *)
Definition count_documents (q : query) (coll : list document) : Z :=
  Z.of_nat (length (find q coll)).

(** [{"$set": upd}] on one document. *)
Definition set_fields (upd : list (string * value)) (d : document) : document :=
  mkDocument (_id d) (foldl (λ m kv, <[kv.1 := kv.2]> m) (fields d) upd).

(** [collection.update_one(q, {"$set": upd})]: the first matching document is
    updated; the result is [matched_count] and the new collection. *)
Fixpoint update_one (q : query) (upd : list (string * value))
    (coll : list document) : Z * list document :=
  match coll with
  | [] => (0, [])
  | d :: coll' =>
      if matches q d then (1, set_fields upd d :: coll')
      else let '(n, coll'') := update_one q upd coll' in (n, d :: coll'')
  end.

(** [collection.insert_one(data)]: the driver gives the document the
    identifier [o]; the store keeps [_id] unique and refuses an identifier
    that is in use ([DuplicateKeyError]). *)
Definition insert_one (o : ObjectId) (data : gmap string value)
    (coll : list document) : outcome (list document) :=
  if bool_decide (Exists (λ d, _id d = o) coll)
  then Raise (Exception "DuplicateKeyError")
  else Return (coll ++ [mkDocument o data]).

(** ** The process: the [db] handle, the environment, the clock *)

(** The database behind [db]: its name, what [list_collection_names()]
    answers (or raises), and the collection [approvalitem]. *)
Record Database : Type := mkDatabase {
  name : string;
  list_collection_names : outcome (list string);
  approvalitem : list document
}.

(** [db] is [None] when the process has no connection to a store. *)
Record world : Type := mkWorld {
  db : option Database;
  DATABASE_URL : option string;
  clock : Z;
  oid_counter : N
}.

Definition set_approvalitem (coll : list document) (w : world) : world :=
  match db w with
  | Some d =>
      mkWorld (Some (mkDatabase (name d) (list_collection_names d) coll))
        (DATABASE_URL w) (clock w) (oid_counter w)
  | None => w
  end.

Definition next_oid (w : world) : world :=
  mkWorld (db w) (DATABASE_URL w) (clock w) (oid_counter w + 1)%N.

(** [datetime.now(timezone.utc)] *)
Definition datetime_now : M world Z := w ← get; mret (clock w).

(** [db["approvalitem"]]; on [db = None] the subscript raises. *)
Definition collection : M world (list document) :=
  w ← get;
  match db w with
  | Some d => mret (approvalitem d)
  | None => raise (Exception "'NoneType' object is not subscriptable")
  end.

(** Modelled from the spec: [create_document] of the module [database], which
    is not among the sources. The spec's store adapter says: "insert(collection,
    record) -> generated_id: inserts a record, returns its new identifier.
    Fails with StoreUnavailable if no live connection exists", the timestamps
    are "filled by the store on insert", and the identifier is "generated by
    the store on creation" and "string-rendered for transport". *)
Definition create_document (data : gmap string value) : M world string :=
  w ← get;
  match db w with
  | None => raise (Exception "Database not available")
  | Some d =>
      now ← datetime_now;
      let data := <["updated_at" := VDate now]> (<["created_at" := VDate now]> data) in
      let o := ObjectId_generate (oid_counter w) in
      modify next_oid;;
      coll ← lift (insert_one o data (approvalitem d));
      modify (set_approvalitem coll);;
      mret (ObjectId_str o)
  end.

(** The document that [create_document] stores for [data] in the world [w]. *)
Definition created_document (data : gmap string value) (w : world) : document :=
  mkDocument (ObjectId_generate (oid_counter w))
    (<["updated_at" := VDate (clock w)]> (<["created_at" := VDate (clock w)]> data)).

(** The identifier that the next insertion will use is not in the collection. *)
Definition oid_unused (w : world) : Prop :=
  ∀ d, db w = Some d →
    ¬ Exists (λ x, _id x = ObjectId_generate (oid_counter w)) (approvalitem d).

(** ** The request schema [ApprovalItemIn] *)

(** A decoded JSON value, as [json.loads] gives it: a number is an [int] or
    a [float]. *)
#[local] Unset Elimination Schemes.
Inductive json : Type :=
  | JNull
  | JBool (b : bool)
  | JInt (z : Z)
  | JFloat (f : float)
  | JStr (s : string)
  | JArr (l : list json)
  | JObj (l : list (string * json)).
#[local] Set Elimination Schemes.

Record ApprovalItemIn : Type := mkApprovalItemIn {
  title : string;
  description : option string;
  requester : string;
  amount : option float
}.

Section Schema.
(** How the validator reads a number out of a string (it accepts numerals
    in lax mode); the grammar is the validation library's and is left open
    here. *)
Variable str_as_float : string → option float.

(** [str], required: [Field(...)]. *)
Definition validate_str (v : option json) : option string :=
  match v with
  | Some (JStr s) => Some s
  | _ => None
  end.

(** [Optional[str]] with default [None]. *)
Definition validate_optional_str (v : option json) : option (option string) :=
  match v with
  | None | Some JNull => Some None
  | Some (JStr s) => Some (Some s)
  | _ => None
  end.

(** [float] in lax mode: a float as it is, an int or a boolean converted to
    a float, or a string holding a numeral. *)
Definition validate_float (v : json) : option float :=
  match v with
  | JFloat f => Some f
  | JInt z => float_of_int z
  | JBool b => float_of_int (if b then 1 else 0)
  | JStr s => str_as_float s
  | _ => None
  end.

(** [Optional[float]] with default [None] and [ge=0]. *)
Definition validate_optional_float_ge0 (v : option json) : option (option float) :=
  match v with
  | None | Some JNull => Some None
  | Some v =>
      match validate_float v with
      | Some f => if float_ge0 f then Some (Some f) else None
      | None => None
      end
  end.

(** Validation of a request body (a JSON object) against [ApprovalItemIn];
    keys that the model does not declare are ignored; [None] is a
    validation error. *)
Definition ApprovalItemIn_validate (body : gmap string json) : option ApprovalItemIn :=
  match validate_str (body !! "title"),
        validate_optional_str (body !! "description"),
        validate_str (body !! "requester"),
        validate_optional_float_ge0 (body !! "amount") with
  | Some t, Some d, Some r, Some a => Some (mkApprovalItemIn t d r a)
  | _, _, _, _ => None
  end.
End Schema.

(** [item.model_dump()] *)
Definition model_dump (item : ApprovalItemIn) : gmap string value :=
  {[ "title" := VStr (title item);
     "description" := from_option VStr VNone (description item);
     "requester" := VStr (requester item);
     "amount" := from_option VNum VNone (amount item) ]}.

(** ** Helpers *)

Definition oid {S} (id_str : string) : M S ObjectId :=
  match ObjectId_of_str id_str with
  | Some o => mret o
  | None => raise (HTTPException 400 "Invalid ID format")
  end.

(** The argument is [None] or a stored document (which holds at least its
    [_id], so it is never the empty [dict]). *)
Definition serialize_item (doc : option document) : option (gmap string value) :=
  match doc with
  | None => None
  | Some doc =>
      Some {[ "id" := VStr (ObjectId_str (_id doc));
              "title" := doc_get doc "title";
              "description" := doc_get doc "description";
              "requester" := doc_get doc "requester";
              "amount" := doc_get doc "amount";
              "status" := doc_get_default doc "status" (VStr "pending");
              "created_at" := doc_get doc "created_at";
              "updated_at" := doc_get doc "updated_at" ]}
  end.

(** ** Handlers *)

Definition read_root : gmap string string :=
  {[ "message" := "Approvals API is running" ]}.

(** The [response] dictionary of [test_database]; it has the same six keys
    throughout. *)
Record diagnostics : Type := mkDiagnostics {
  backend : string;
  database : string;
  database_url : option string;
  database_name : option string;
  connection_status : string;
  collections : list string
}.

Definition set_database (v : string) (r : diagnostics) : diagnostics :=
  mkDiagnostics (backend r) v (database_url r) (database_name r)
    (connection_status r) (collections r).
Definition set_database_url (v : option string) (r : diagnostics) : diagnostics :=
  mkDiagnostics (backend r) (database r) v (database_name r)
    (connection_status r) (collections r).
Definition set_database_name (v : option string) (r : diagnostics) : diagnostics :=
  mkDiagnostics (backend r) (database r) (database_url r) v
    (connection_status r) (collections r).
Definition set_connection_status (v : string) (r : diagnostics) : diagnostics :=
  mkDiagnostics (backend r) (database r) (database_url r) (database_name r)
    v (collections r).
Definition set_collections (v : list string) (r : diagnostics) : diagnostics :=
  mkDiagnostics (backend r) (database r) (database_url r) (database_name r)
    (connection_status r) v.

(** A byte of the form 10xxxxxx: it continues a character in UTF-8. *)
Definition is_continuation (c : ascii) : bool :=
  let n := N_of_ascii c in (128 <=? n)%N && (n <? 192)%N.

(** [len(s)]: the number of characters, each of which starts with a byte
    that is no continuation. *)
Fixpoint str_len (s : string) : nat :=
  match s with
  | EmptyString => O
  | String c s' => if is_continuation c then str_len s' else S (str_len s')
  end.

(** [s[:n]]: the first [n] characters, with all their bytes. *)
Fixpoint str_prefix (n : nat) (s : string) : string :=
  match s with
  | EmptyString => EmptyString
  | String c s' =>
      if is_continuation c then String c (str_prefix n s')
      else
        match n with
        | O => EmptyString
        | S n' => String c (str_prefix n' s')
        end
  end.

(** The truth value of [os.getenv(...)]: set and not empty. *)
Definition truthy (s : option string) : bool :=
  match s with
  | Some s => negb (String.eqb s "")
  | None => false
  end.

(** The two [try] blocks of [test_database], over the [response] they
    assign to. *)
Definition test_database_body (w : world) : M diagnostics unit :=
  try_except
    (match db w with
     | Some d =>
         modify (set_database "✅ Available");;
         modify (set_database_url
                   (Some (if truthy (DATABASE_URL w) then "✅ Set" else "❌ Not Set")));;
         modify (set_database_name (Some (name d)));;
         modify (set_connection_status "Connected");;
         try_except
           (collections ← lift (list_collection_names d);
            modify (set_collections (take 10 collections));;
            modify (set_database "✅ Connected & Working"))
           (λ e, modify (set_database
                           ("⚠️ Connected but Error: " +:+ str_prefix 50 (exn_str e))))
     | None => modify (set_database "⚠️ Available but not initialized")
     end)
    (λ e, modify (set_database ("❌ Error: " +:+ str_prefix 50 (exn_str e)))).

Definition test_database : M world diagnostics :=
  λ w,
    let response :=
      mkDiagnostics "✅ Running" "❌ Not Available" None None "Not Connected" [] in
    match test_database_body w response with
    | (Return _, response) => (Return response, w)
    | (Raise e, _) => (Raise e, w)
    end.

Definition Database_not_available {A} : M world A :=
  raise (HTTPException 500 "Database not available").

Definition list_approvals (status : option string)
    : M world (list (option (gmap string value))) :=
  w ← get;
  match db w with
  | None => Database_not_available
  | Some _ =>
      let filter_dict :=
        match status with
        | Some s => if String.eqb s "" then QAll else QStatus s
        | None => QAll
        end in
      coll ← collection;
      let docs := sort_descending "created_at" (find filter_dict coll) in
      mret ((λ d, serialize_item (Some d)) <$> docs)
  end.

(** [ObjectId(inserted_id)], outside any [try]. *)
Definition ObjectId_new {S} (s : string) : M S ObjectId :=
  match ObjectId_of_str s with
  | Some o => mret o
  | None => raise (Exception "InvalidId")
  end.

Definition create_approval (item : ApprovalItemIn)
    : M world (option (gmap string value)) :=
  let data := model_dump item in
  let data := <["status" := VStr "pending"]> data in
  inserted_id ← create_document data;
  o ← ObjectId_new inserted_id;
  coll ← collection;
  let doc := find_one (QId o) coll in
  mret (serialize_item doc).

(** [db["approvalitem"].update_one(q, {"$set": upd})], giving
    [matched_count]. *)
Definition collection_update_one (q : query) (upd : list (string * value))
    : M world Z :=
  coll ← collection;
  let '(matched_count, coll') := update_one q upd coll in
  modify (set_approvalitem coll');;
  mret matched_count.

(** The common body of [approve_item] and [reject_item], which differ in the
    status they set. *)
Definition set_status_item (new_status : string) (item_id : string)
    : M world (option (gmap string value)) :=
  w ← get;
  match db w with
  | None => Database_not_available
  | Some _ =>
      o ← oid item_id;
      now ← datetime_now;
      matched_count ← collection_update_one (QId o)
        [("status", VStr new_status); ("updated_at", VDate now)];
      if (matched_count =? 0)%Z then raise (HTTPException 404 "Item not found")
      else
        o ← oid item_id;
        coll ← collection;
        let doc := find_one (QId o) coll in
        mret (serialize_item doc)
  end.

Definition approve_item (item_id : string) := set_status_item "approved" item_id.
Definition reject_item (item_id : string) := set_status_item "rejected" item_id.

(** The dictionaries [seed_data] answers with: [inserted], and [message]
    when nothing was inserted. *)
Record seed_result : Type := mkSeedResult {
  inserted : Z;
  message : option string
}.

Definition sample (t d r : string) (a : float) : gmap string value :=
  {[ "title" := VStr t; "description" := VStr d; "requester" := VStr r;
     "amount" := VNum a; "status" := VStr "pending" ]}.

Definition samples : list (gmap string value) :=
  [ sample "Marketing Spend Q1" "Campaign boost on socials" "Ava" (float_of_Z 1200);
    sample "Laptop Purchase" "Designer MacBook Pro" "Leo" (float_of_Z 2499);
    sample "SaaS Renewal" "Analytics tool annual plan" "Mia" (float_of_Z 780);
    sample "Team Offsite" "Venue deposit" "Noah" (float_of_Z 1500) ].

Definition seed_data : M world seed_result :=
  w ← get;
  match db w with
  | None => Database_not_available
  | Some _ =>
      coll ← collection;
      let count := count_documents QAll coll in
      if (0 <? count)%Z then mret (mkSeedResult 0 (Some "Data already present"))
      else
        for_each samples (λ s, create_document s;; mret tt);;
        mret (mkSeedResult (Z.of_nat (length samples)) None)
  end.

(** ** The application: routes, request validation, status codes *)

Inductive response (A : Type) : Type :=
  | Response (status_code : Z) (content : A)
  | ErrorResponse (status_code : Z) (detail : string).
Arguments Response {A} status_code content.
Arguments ErrorResponse {A} status_code detail.

Definition status_of {A} (r : response A) : Z :=
  match r with
  | Response c _ => c
  | ErrorResponse c _ => c
  end.

Definition is_success {A} (r : response A) : bool :=
  match r with
  | Response _ _ => true
  | ErrorResponse _ _ => false
  end.

(** Whether a value can be rendered as JSON: the framework renders with
    [allow_nan=False], so a float that is infinite or NaN cannot. *)
Definition value_renderable (v : value) : bool :=
  match v with
  | VNum f => is_finite f
  | _ => true
  end.

(** The same for a serialized item, or [None]. *)
Definition item_renderable (item : option (gmap string value)) : bool :=
  match item with
  | None => true
  | Some m => bool_decide (map_Forall (λ _ v, value_renderable v = true) m)
  end.

(** The same for a stored document, as [serialize_item] shows it. *)
Definition doc_renderable (x : document) : bool :=
  item_renderable (serialize_item (Some x)).

(** What the framework answers for a handler registered with the success
    status [status_code]: an [HTTPException] carries its own status, a
    request that fails validation is a 422, any other exception a 500. What
    the handler returns is then rendered as JSON; when that fails (the
    [ValueError] of a float out of range) the answer is a 500 as well, after
    everything the handler wrote. *)
Definition serve {A} (renderable : A → bool) (status_code : Z) (handler : M world A)
    : world → response A * world :=
  λ w,
    match handler w with
    | (Return a, w') =>
        if renderable a then (Response status_code a, w')
        else (ErrorResponse 500 "Internal Server Error", w')
    | (Raise (HTTPException c d), w') => (ErrorResponse c d, w')
    | (Raise RequestValidationError, w') =>
        (ErrorResponse 422 "Unprocessable Entity", w')
    | (Raise (Exception _), w') => (ErrorResponse 500 "Internal Server Error", w')
    end.

(** [pattern="^(pending|approved|rejected)$"] *)
Definition status_pattern (s : string) : bool :=
  String.eqb s "pending" || String.eqb s "approved" || String.eqb s "rejected".

(** [Query("pending", pattern=...)]: the default when the parameter is
    absent, the pattern when it is given. *)
Definition Query_status (param : option string) : M world (option string) :=
  match param with
  | None => mret (Some "pending")
  | Some s => if status_pattern s then mret (Some s) else raise RequestValidationError
  end.

(** [GET /test] *)
Definition get_test : world → response diagnostics * world :=
  serve (λ _, true) 200 test_database.

(** [GET /api/approvals] *)
Definition get_approvals (param : option string) :=
  serve (forallb item_renderable) 200
    (status ← Query_status param; list_approvals status).

Section Routes.
Variable str_as_float : string → option float.

(** [POST /api/approvals], registered with [status_code=201]. *)
Definition post_approvals (body : gmap string json) :=
  serve item_renderable 201
    (match ApprovalItemIn_validate str_as_float body with
     | Some item => create_approval item
     | None => raise RequestValidationError
     end).
End Routes.

(** [POST /api/approvals/{item_id}/approve] *)
Definition post_approve (item_id : string) :=
  serve item_renderable 200 (approve_item item_id).

(** [POST /api/approvals/{item_id}/reject] *)
Definition post_reject (item_id : string) :=
  serve item_renderable 200 (reject_item item_id).

(** [POST /api/approvals/seed] *)
Definition post_seed := serve (λ _, true) 200 seed_data.

(** ** The request bodies, in the words of the schema and of the specification *)

Section Bodies.
Variable str_as_float : string → option float.

(** What [ApprovalItemIn] asks of a body, field by field: [title] and
    [requester] are strings; [description] is absent, null or a string;
    [amount] is absent, null, a float that is at least 0, an int within the
    range of the floats and at least 0 as a float, a boolean, or a string
    whose numeral is at least 0. *)
Definition schema_ok (body : gmap string json) : Prop :=
  (∃ t, body !! "title" = Some (JStr t)) ∧
  (∃ r, body !! "requester" = Some (JStr r)) ∧
  (body !! "description" = None ∨ body !! "description" = Some JNull ∨
   ∃ s, body !! "description" = Some (JStr s)) ∧
  (body !! "amount" = None ∨ body !! "amount" = Some JNull ∨
   (∃ f, body !! "amount" = Some (JFloat f) ∧ float_ge0 f = true) ∨
   (∃ z f, body !! "amount" = Some (JInt z) ∧ float_of_int z = Some f ∧
           float_ge0 f = true) ∨
   (∃ b, body !! "amount" = Some (JBool b)) ∨
   (∃ s f, body !! "amount" = Some (JStr s) ∧ str_as_float s = Some f ∧
           float_ge0 f = true)).

(** The [amount] of the body, when it is given as a float or as a numeral in
    a string, is finite (an int or a boolean always is, once accepted). *)
Definition amount_finite (body : gmap string json) : Prop :=
  ∀ f, body !! "amount" = Some (JFloat f) ∨
       (∃ s, body !! "amount" = Some (JStr s) ∧ str_as_float s = Some f) →
       is_finite f = true.
End Bodies.


(** The stored status of a document is [s]. *)
Definition has_status (s : string) (d : document) : Prop :=
  fields d !! "status" = Some (VStr s).

Global Instance has_status_dec s d : Decision (has_status s d).
Proof.
  unfold has_status.
  destruct (fields d !! "status") as [[| | |s'|]|]; try (right; congruence).
  destruct (decide (s' = s)); [left | right]; congruence.
Defined.

(** The documents that a run of insertions stores for the dictionaries [l],
    at the time [t] and from the counter [c] on. *)
Fixpoint stored_from (t : Z) (c : N) (l : list (gmap string value)) : list document :=
  match l with
  | [] => []
  | data :: l' =>
      mkDocument (ObjectId_generate c)
        (<["updated_at" := VDate t]> (<["created_at" := VDate t]> data))
      :: stored_from t (c + 1) l'
  end.

(** The keys of a serialized item. *)
Definition item_keys : gset string :=
  {[ "id"; "title"; "description"; "requester"; "amount"; "status";
     "created_at"; "updated_at" ]}.

(** ** The routes as one application *)

(** A request to one of the routes that [app] registers. *)
Inductive request : Type :=
  | GetRoot
  | GetTest
  | GetApprovals (param : option string)
  | PostApprovals (body : gmap string json)
  | PostApprove (item_id : string)
  | PostReject (item_id : string)
  | PostSeed.

(** The status that a request is answered with, and the world it leaves. *)
Definition handle (str_as_float : string → option float) (rq : request) (w : world)
    : Z * world :=
  match rq with
  | GetRoot => (200, w)
  | GetTest => let '(r, w') := get_test w in (status_of r, w')
  | GetApprovals param => let '(r, w') := get_approvals param w in (status_of r, w')
  | PostApprovals body =>
      let '(r, w') := post_approvals str_as_float body w in (status_of r, w')
  | PostApprove item_id => let '(r, w') := post_approve item_id w in (status_of r, w')
  | PostReject item_id => let '(r, w') := post_reject item_id w in (status_of r, w')
  | PostSeed => let '(r, w') := post_seed w in (status_of r, w')
  end.

(** Time passes between two requests. *)
Definition set_clock (t : Z) (w : world) : world :=
  mkWorld (db w) (DATABASE_URL w) t (oid_counter w).

(** A run of requests, each at its own time. *)
Fixpoint run (str_as_float : string → option float) (rqs : list (Z * request))
    (w : world) : world :=
  match rqs with
  | [] => w
  | (t, rq) :: rqs' => run str_as_float rqs' (handle str_as_float rq (set_clock t w)).2
  end.

(** [x'] is the document [x] after some status changes: the same [_id], and
    the same fields but for [status] and [updated_at]. *)
Definition same_record (x x' : document) : Prop :=
  _id x' = _id x ∧
  ∀ k, k ≠ "status" → k ≠ "updated_at" → fields x' !! k = fields x !! k.

(** [coll'] holds every document of [coll], at its place and up to status
    changes, and then possibly new ones. *)
Definition extends (coll coll' : list document) : Prop :=
  ∃ old new, coll' = old ++ new ∧ Forall2 same_record coll old.

(** [x] is the first document of [coll] with the identifier [o], at the
    place [i]: the one that [update_one] and [find_one] take. *)
Definition first_with_id (o : ObjectId) (coll : list document) (i : nat)
    (x : document) : Prop :=
  coll !! i = Some x ∧ _id x = o ∧ Forall (λ y, _id y ≠ o) (take i coll).

(** The document [x] after [{"$set": {"status": st, "updated_at": t}}]. *)
Definition with_status (st : string) (t : Z) (x : document) : document :=
  set_fields [("status", VStr st); ("updated_at", VDate t)] x.

(** The stored status is one of the three. *)
Definition status_valid (x : document) : Prop :=
  ∃ s, s ∈ ["pending"; "approved"; "rejected"] ∧ fields x !! "status" = Some (VStr s).

(** ** Worlds and requests used as examples *)

Definition no_numerals : string → option float := λ _, None.

Definition empty_db : Database :=
  mkDatabase "appdb" (Return ["approvalitem"]) [].

Definition world_empty : world := mkWorld (Some empty_db) (Some "mongodb://db") 100 0.

Definition world_down : world := mkWorld None None 100 0.

(** Three stored documents, in the order of insertion. *)
Definition doc_a : document :=
  mkDocument (ObjectId_generate 0)
    {[ "title" := VStr "Chairs"; "requester" := VStr "Ava";
       "status" := VStr "approved"; "created_at" := VDate 1 ]}.
Definition doc_b : document :=
  mkDocument (ObjectId_generate 1)
    {[ "title" := VStr "Desk"; "requester" := VStr "Sam";
       "status" := VStr "pending"; "created_at" := VDate 2 ]}.
Definition doc_c : document :=
  mkDocument (ObjectId_generate 2)
    {[ "title" := VStr "Lamp"; "requester" := VStr "Leo";
       "status" := VStr "approved"; "created_at" := VDate 3 ]}.

Definition db_three : Database :=
  mkDatabase "appdb" (Return ["approvalitem"]) [doc_a; doc_b; doc_c].

Definition world_three : world := mkWorld (Some db_three) (Some "mongodb://db") 100 3.

(** A store that is connected but fails to list its collections. *)
Definition db_broken : Database :=
  mkDatabase "appdb"
    (Raise (Exception
       "not authorized on appdb to execute command { listCollections: 1, filter: {} }"))
    [].

Definition world_broken : world := mkWorld (Some db_broken) None 100 0.

Definition body_desk : gmap string json :=
  {[ "title" := JStr "Desk"; "requester" := JStr "Sam"; "amount" := JInt 300;
     "status" := JStr "approved" ]}.

Definition body_empty_title : gmap string json :=
  {[ "title" := JStr ""; "requester" := JStr "Sam" ]}.




(** A store with one pending document whose amount is infinite. *)
Definition doc_infinite : document :=
  mkDocument (ObjectId_generate 0)
    {[ "title" := VStr "Desk"; "requester" := VStr "Sam";
       "amount" := VNum (S754_infinity false);
       "status" := VStr "pending"; "created_at" := VDate 1 ]}.

Definition world_infinite : world :=
  mkWorld (Some (mkDatabase "appdb" (Return ["approvalitem"]) [doc_infinite]))
    (Some "mongodb://db") 100 1.

(** A run of four requests. *)
Definition run_example : list (Z * request) :=
  [ (101, PostApprovals body_desk);
    (102, PostApprove "000000000000000000000001");
    (103, PostSeed);
    (104, GetApprovals None) ].

(** * Properties *)

(** ** Running the monad *)

Ltac unfold_monad :=
  unfold mbind, M_bind, mret, M_ret, bind, ret, get, modify, raise, lift,
    try_except in *.

Lemma bind_Return {S A B} (m : M S A) (k : A → M S B) s a s' :
  m s = (Return a, s') → (x ← m; k x) s = k a s'.
Proof. unfold_monad. by intros ->. Qed.

Lemma bind_Raise {S A B} (m : M S A) (k : A → M S B) s e s' :
  m s = (Raise e, s') → (x ← m; k x) s = (Raise e, s').
Proof. unfold_monad. by intros ->. Qed.

(** ** Answers *)

Lemma serve_Return {A} (rn : A → bool) (sc : Z) (h : M world A) w a w' :
  h w = (Return a, w') →
  serve rn sc h w =
  if rn a then (Response sc a, w') else (ErrorResponse 500 "Internal Server Error", w').
Proof. unfold serve. by intros ->. Qed.

Lemma serve_HTTPException {A} (rn : A → bool) (sc : Z) (h : M world A) w c d w' :
  h w = (Raise (HTTPException c d), w') → serve rn sc h w = (ErrorResponse c d, w').
Proof. unfold serve. by intros ->. Qed.

Lemma serve_Exception {A} (rn : A → bool) (sc : Z) (h : M world A) w msg w' :
  h w = (Raise (Exception msg), w') →
  serve rn sc h w = (ErrorResponse 500 "Internal Server Error", w').
Proof. unfold serve. by intros ->. Qed.

Lemma serve_RequestValidationError {A} (rn : A → bool) (sc : Z) (h : M world A) w w' :
  h w = (Raise RequestValidationError, w') →
  serve rn sc h w = (ErrorResponse 422 "Unprocessable Entity", w').
Proof. unfold serve. by intros ->. Qed.

(** A success answer has the registered status, and is what the handler
    returned, rendered. *)
Lemma serve_Response_inv {A} (rn : A → bool) (sc : Z) (h : M world A) w c a w' :
  serve rn sc h w = (Response c a, w') →
  c = sc ∧ h w = (Return a, w') ∧ rn a = true.
Proof.
  unfold serve. destruct (h w) as [[a0|[]] w0]; try discriminate.
  destruct (rn a0) eqn:Hrn; [|discriminate]. by intros [= <- <- <-].
Qed.

Lemma serve_world {A} (rn : A → bool) (sc : Z) (h : M world A) w :
  (serve rn sc h w).2 = (h w).2.
Proof. unfold serve. destruct (h w) as [[a0|[]] w0]; try done. by destruct (rn a0). Qed.

(** A document renders exactly when the seven fields that [serialize_item]
    copies do. *)
Lemma doc_renderable_fields (x : document) :
  doc_renderable x = true ↔
  value_renderable (doc_get x "title") = true ∧
  value_renderable (doc_get x "description") = true ∧
  value_renderable (doc_get x "requester") = true ∧
  value_renderable (doc_get x "amount") = true ∧
  value_renderable (doc_get_default x "status" (VStr "pending")) = true ∧
  value_renderable (doc_get x "created_at") = true ∧
  value_renderable (doc_get x "updated_at") = true.
Proof.
  unfold doc_renderable, serialize_item, item_renderable.
  rewrite bool_decide_eq_true.
  rewrite !map_Forall_insert by (by simplify_map_eq).
  rewrite map_Forall_singleton. cbn [value_renderable]. tauto.
Qed.

(** After a status update a document renders exactly when its five other
    fields do. *)
Lemma with_status_renderable (st : string) (t : Z) (x : document) :
  doc_renderable (with_status st t x) = true ↔
  value_renderable (doc_get x "title") = true ∧
  value_renderable (doc_get x "description") = true ∧
  value_renderable (doc_get x "requester") = true ∧
  value_renderable (doc_get x "amount") = true ∧
  value_renderable (doc_get x "created_at") = true.
Proof.
  rewrite doc_renderable_fields.
  unfold with_status, set_fields, doc_get, doc_get_default. cbn [fields foldl fst snd].
  repeat (rewrite lookup_insert_eq || rewrite lookup_insert_ne by done).
  cbn [default from_option id value_renderable]. tauto.
Qed.

Lemma with_status_again_renderable (st st' : string) (t t' : Z) (x : document) :
  doc_renderable (with_status st t x) = true →
  doc_renderable (with_status st' t' (with_status st t x)) = true.
Proof.
  rewrite !with_status_renderable.
  unfold with_status, set_fields, doc_get. cbn [fields foldl fst snd].
  by repeat (rewrite lookup_insert_eq || rewrite lookup_insert_ne by done).
Qed.

Lemma float_of_int_finite (z : Z) (f : float) :
  float_of_int z = Some f → is_finite f = true.
Proof.
  unfold float_of_int. destruct (is_finite (float_of_Z z)) eqn:E; [|done].
  by intros [= <-].
Qed.

(** ** Identifiers: rendering and parsing *)

Lemma hex_pair (c : ascii) :
  let n := N_of_ascii c in
  isspace (hexdigit (n / 16)) = false ∧
  digit_value (hexdigit (n / 16)) = Some (n / 16)%N ∧
  digit_value (hexdigit (n mod 16)) = Some (n mod 16)%N ∧
  ascii_of_N (n / 16 * 16 + n mod 16) = c.
Proof.
  destruct c as [[] [] [] [] [] [] [] []]; vm_compute; by repeat split.
Qed.

(** Parsing the hexadecimal rendering of a byte string gives it back. *)
Lemma fromhex_hexlify (b : bytes) : fromhex (hexlify b) = Some b.
Proof.
  induction b as [|c b IH]; [done|].
  destruct (hex_pair c) as (Hsp & Hhi & Hlo & Hc).
  cbn [hexlify fromhex]. rewrite Hsp, Hhi, Hlo, Hc, IH. done.
Qed.

Lemma length_hexlify (b : bytes) :
  String.length (hexlify b) = (2 * String.length b)%nat.
Proof. induction b as [|c b IH]; cbn [hexlify String.length]; lia. Qed.

Lemma append_nil_l (s : string) : EmptyString +:+ s = s.
Proof. reflexivity. Qed.

Lemma append_cons (c : ascii) (s1 s2 : string) :
  String c s1 +:+ s2 = String c (s1 +:+ s2).
Proof. reflexivity. Qed.

Lemma length_append (s1 s2 : string) :
  String.length (s1 +:+ s2) = (String.length s1 + String.length s2)%nat.
Proof.
  induction s1 as [|c s1 IH]; rewrite ?append_nil_l, ?append_cons; cbn;
    [done | by rewrite IH].
Qed.

Lemma big_endian_S (i : nat) (n : N) :
  big_endian (S i) n =
  big_endian i (n / 256) +:+ String (ascii_of_N (n mod 256)) EmptyString.
Proof. reflexivity. Qed.

Lemma length_big_endian (i : nat) (n : N) : String.length (big_endian i n) = i.
Proof.
  revert n. induction i as [|i IH]; intros n; [done|].
  rewrite big_endian_S, length_append, IH. cbn. lia.
Qed.

(** [ObjectId(str(o))] is [o] for a generated identifier. *)
Lemma ObjectId_of_str_generate (c : N) :
  ObjectId_of_str (ObjectId_str (ObjectId_generate c)) = Some (ObjectId_generate c).
Proof.
  unfold ObjectId_of_str, ObjectId_str, ObjectId_generate. cbn [binary].
  rewrite length_hexlify, length_big_endian, fromhex_hexlify. done.
Qed.

Lemma append_last_inj (p q : string) (a b : ascii) :
  p +:+ String a EmptyString = q +:+ String b EmptyString → a = b.
Proof.
  revert q. induction p as [|x p IH]; intros [|y q];
    rewrite ?append_nil_l, ?append_cons; intros H.
  - congruence.
  - injection H as _ H. destruct q; discriminate.
  - injection H as _ H. destruct p; discriminate.
  - injection H as _ H. eauto.
Qed.

(** Two generated identifiers that are equal come from counters that agree in
    their low byte. *)
Lemma ObjectId_generate_low_byte (n m : N) :
  ObjectId_generate n = ObjectId_generate m → (n mod 256 = m mod 256)%N.
Proof.
  unfold ObjectId_generate. intros H. apply (f_equal binary) in H.
  cbn [binary] in H. change 12%nat with (S 11) in H.
  rewrite !big_endian_S in H. apply append_last_inj in H.
  apply (f_equal N_of_ascii) in H.
  rewrite !N_ascii_embedding in H by (apply N.mod_lt; done). done.
Qed.

Lemma ObjectId_generate_next_ne (n k : N) :
  (0 < k < 256)%N → ObjectId_generate n ≠ ObjectId_generate (n + k).
Proof.
  intros Hk H%ObjectId_generate_low_byte.
  apply (f_equal Z.of_N) in H. rewrite !N2Z.inj_mod, N2Z.inj_add in H.
  change (Z.of_N 256) with 256 in H.
  Z.to_euclidean_division_equations. lia.
Qed.

(** ** The collection *)

Lemma find_none (q : query) (coll : list document) :
  Forall (λ d, matches q d = false) coll → find q coll = [].
Proof.
  unfold find. induction 1 as [|d coll Hd _ IH]; [done|].
  cbn. by rewrite Hd.
Qed.

Lemma matches_QId (o : ObjectId) (d : document) :
  matches (QId o) d = true ↔ _id d = o.
Proof. cbn. by rewrite bool_decide_eq_true. Qed.

Lemma matches_QStatus (s : string) (d : document) :
  matches (QStatus s) d = true ↔ fields d !! "status" = Some (VStr s).
Proof.
  cbn. destruct (fields d !! "status") as [[]|]; try (split; congruence).
  rewrite String.eqb_eq. split; congruence.
Qed.

Lemma unused_no_match (o : ObjectId) (coll : list document) :
  ¬ Exists (λ d, _id d = o) coll → Forall (λ d, matches (QId o) d = false) coll.
Proof.
  rewrite <- Forall_Exists_neg. intros H. eapply Forall_impl; [exact H|].
  intros d Hd. cbn beta in Hd.
  destruct (matches (QId o) d) eqn:E; [|done]. by apply matches_QId in E.
Qed.

(** After an insertion under an unused identifier, [find_one] by that
    identifier gives the inserted document. *)
Lemma find_one_inserted (o : ObjectId) (data : gmap string value)
    (coll : list document) :
  ¬ Exists (λ d, _id d = o) coll →
  find_one (QId o) (coll ++ [mkDocument o data]) = Some (mkDocument o data).
Proof.
  intros H%unused_no_match. unfold find_one, find in *.
  rewrite List.filter_app. fold (find (QId o) coll). rewrite find_none by done.
  cbn. by rewrite bool_decide_eq_true_2.
Qed.

Lemma update_one_no_match q upd (coll : list document) :
  Forall (λ d, matches q d = false) coll → update_one q upd coll = (0, coll).
Proof.
  induction 1 as [|d coll Hd _ IH]; [done|]. cbn. by rewrite Hd, IH.
Qed.

(** [update_one] either matches nothing and changes nothing, or rewrites
    the first matching document in place. *)
Lemma update_one_spec q upd (coll : list document) :
  (Forall (λ d, matches q d = false) coll ∧ update_one q upd coll = (0, coll)) ∨
  (∃ i d, coll !! i = Some d ∧ matches q d = true ∧
          Forall (λ d', matches q d' = false) (take i coll) ∧
          update_one q upd coll = (1, <[i := set_fields upd d]> coll)).
Proof.
  induction coll as [|x coll IH].
  - left. by split.
  - cbn. destruct (matches q x) eqn:Hx.
    + right. exists 0%nat, x. repeat split; auto.
    + destruct IH as [[Hall ->]|(i & d & Hi & Hd & Hpre & ->)].
      * left. split; [by constructor | done].
      * right. exists (S i), d. repeat split; auto. cbn. by constructor.
Qed.

(** ** The world *)

Lemma set_approvalitem_same (w : world) (d : Database) :
  db w = Some d → set_approvalitem (approvalitem d) w = w.
Proof. destruct w as [? ? ? ?], d. cbn. by intros ->. Qed.

Lemma db_set_approvalitem (coll : list document) (w : world) (d : Database) :
  db w = Some d →
  db (set_approvalitem coll w) =
  Some (mkDatabase (name d) (list_collection_names d) coll).
Proof. unfold set_approvalitem. by intros ->. Qed.

Lemma collection_Some (w : world) (d : Database) :
  db w = Some d → collection w = (Return (approvalitem d), w).
Proof. unfold collection. unfold_monad. by intros ->. Qed.

(** ** Creation *)

Lemma create_document_ok (data : gmap string value) (w : world) (d : Database) :
  db w = Some d → oid_unused w →
  create_document data w =
  (Return (ObjectId_str (ObjectId_generate (oid_counter w))),
   set_approvalitem (approvalitem d ++ [created_document data w]) (next_oid w)).
Proof.
  intros Hd Hu. specialize (Hu d Hd).
  unfold create_document, insert_one, datetime_now. unfold_monad.
  rewrite Hd. rewrite bool_decide_eq_false_2 by done. done.
Qed.

(** [create_document] raises nothing but a plain [Exception]; when it
    returns, the store was there and the identifier was unused. *)
Lemma create_document_cases (data : gmap string value) (w : world) :
  (∃ msg w', create_document data w = (Raise (Exception msg), w')) ∨
  (∃ d, db w = Some d ∧ oid_unused w).
Proof.
  destruct (db w) as [d|] eqn:Hd.
  - destruct (decide (Exists (λ x, _id x = ObjectId_generate (oid_counter w))
                        (approvalitem d))) as [Hex|Hex].
    + left. unfold create_document, insert_one, datetime_now. unfold_monad.
      rewrite Hd. rewrite bool_decide_eq_true_2 by done. eauto.
    + right. exists d. split; [done|]. intros d' Hd'.
      rewrite Hd in Hd'. by injection Hd' as <-.
  - left. unfold create_document. unfold_monad. rewrite Hd. eauto.
Qed.

Lemma create_approval_ok (item : ApprovalItemIn) (w : world) (d : Database) :
  db w = Some d → oid_unused w →
  let doc := created_document (<["status" := VStr "pending"]> (model_dump item)) w in
  create_approval item w =
  (Return (serialize_item (Some doc)),
   set_approvalitem (approvalitem d ++ [doc]) (next_oid w)).
Proof.
  intros Hd Hu doc. unfold create_approval.
  erewrite bind_Return by (by apply create_document_ok).
  unfold ObjectId_new. rewrite ObjectId_of_str_generate.
  erewrite bind_Return by reflexivity.
  erewrite bind_Return.
  2:{ apply collection_Some. by apply db_set_approvalitem. }
  cbn [approvalitem]. subst doc. unfold created_document.
  rewrite find_one_inserted by (by apply Hu). done.
Qed.

Lemma create_approval_cases (item : ApprovalItemIn) (w : world) :
  (∃ msg w', create_approval item w = (Raise (Exception msg), w')) ∨
  (∃ d, db w = Some d ∧ oid_unused w).
Proof.
  destruct (create_document_cases
              (<["status" := VStr "pending"]> (model_dump item)) w)
    as [(msg & w' & H)|H]; [|by right].
  left. exists msg, w'. unfold create_approval. by erewrite bind_Raise.
Qed.

Section Create.
Variable str_as_float : string → option float.

Lemma validate_str_Some (v : option json) (s : string) :
  validate_str v = Some s ↔ v = Some (JStr s).
Proof. destruct v as [[]|]; cbn; split; congruence. Qed.

Lemma validate_optional_str_Some (v : option json) :
  is_Some (validate_optional_str v) ↔
  v = None ∨ v = Some JNull ∨ ∃ s, v = Some (JStr s).
Proof.
  destruct v as [[]|]; cbn; split; rewrite ?is_Some_alt; try naive_solver.
Qed.

Lemma float_of_int_bool (b : bool) :
  ∃ f, float_of_int (if b then 1 else 0) = Some f ∧ float_ge0 f = true.
Proof. destruct b; eexists; split; vm_compute; reflexivity. Qed.

Lemma validate_float_ge0_Some (x : json) :
  is_Some (match validate_float str_as_float x with
           | Some f => if float_ge0 f then Some (Some f) else None
           | None => None
           end) ↔
  ∃ f, validate_float str_as_float x = Some f ∧ float_ge0 f = true.
Proof.
  destruct (validate_float str_as_float x) as [f|].
  - destruct (float_ge0 f) eqn:Hf.
    + split; [intros _; by exists f | by eexists].
    + split; [by intros [? [=]] | intros (f' & [= <-] & Hf'); congruence].
  - split; [by intros [? [=]] | by intros (f' & [=] & _)].
Qed.

Lemma validate_optional_float_ge0_Some (v : option json) :
  is_Some (validate_optional_float_ge0 str_as_float v) ↔
  v = None ∨ v = Some JNull ∨
  (∃ f, v = Some (JFloat f) ∧ float_ge0 f = true) ∨
  (∃ z f, v = Some (JInt z) ∧ float_of_int z = Some f ∧ float_ge0 f = true) ∨
  (∃ b, v = Some (JBool b)) ∨
  (∃ s f, v = Some (JStr s) ∧ str_as_float s = Some f ∧ float_ge0 f = true).
Proof.
  unfold validate_optional_float_ge0.
  destruct v as [x|]; [|split; [by left | by eexists]].
  assert (Hm : x ≠ JNull →
               (is_Some (match x with
                         | JNull => Some None
                         | _ => match validate_float str_as_float x with
                                | Some f => if float_ge0 f then Some (Some f) else None
                                | None => None
                                end
                         end) ↔
                ∃ f, validate_float str_as_float x = Some f ∧ float_ge0 f = true)).
  { intros Hx. rewrite <- validate_float_ge0_Some. by destruct x. }
  destruct x as [|b|z|f0|s|l|l]; [split; [intros _; right; by left | by eexists]|..];
    rewrite Hm by done; clear Hm; cbn [validate_float]; split.
  all: try (intros (f & Hf & Hge)); try done.
  all: try (intros [[=]|[[=]|[(f & [= <-] & Hge)|[(z' & f & [= <-] & Hz & Hge)|
                    [(b' & [= <-])|(s0 & f & [= <-] & Hs & Hge)]]]]]; try done).
  - right; right; right; right; left. by exists b.
  - apply float_of_int_bool.
  - right; right; right; left. by exists z, f.
  - by exists f.
  - right; right; left. injection Hf as ->. by exists f.
  - by exists f0.
  - right; right; right; right; right. by exists s, f.
  - by exists f.
Qed.

(** The validator accepts exactly the bodies that meet the schema. *)
Lemma ApprovalItemIn_validate_Some (body : gmap string json) :
  is_Some (ApprovalItemIn_validate str_as_float body) ↔
  schema_ok str_as_float body.
Proof.
  unfold ApprovalItemIn_validate, schema_ok.
  rewrite <- validate_optional_float_ge0_Some, <- validate_optional_str_Some.
  setoid_rewrite <- validate_str_Some.
  destruct (validate_str (body !! "title")),
    (validate_optional_str (body !! "description")),
    (validate_str (body !! "requester")),
    (validate_optional_float_ge0 str_as_float (body !! "amount"));
    rewrite ?is_Some_alt; naive_solver.
Qed.

(** The amount of a validated item is finite exactly when the body gave a
    finite one. *)
Lemma ApprovalItemIn_validate_amount (body : gmap string json) item :
  ApprovalItemIn_validate str_as_float body = Some item →
  amount_finite str_as_float body ↔ ∀ f, amount item = Some f → is_finite f = true.
Proof.
  unfold ApprovalItemIn_validate, amount_finite.
  destruct (validate_str (body !! "title")) as [t|]; [|done].
  destruct (validate_optional_str (body !! "description")); [|done].
  destruct (validate_str (body !! "requester")) as [r|]; [|done].
  destruct (validate_optional_float_ge0 _ _) as [am|] eqn:Ham; [|done].
  intros [= <-]. cbn [amount]. unfold validate_optional_float_ge0 in Ham.
  destruct (body !! "amount") as [[|b|z|f0|s0|l|l]|]; cbn [validate_float] in Ham;
    try discriminate; try (injection Ham as <-; naive_solver).
  - destruct (float_of_int (if b then 1 else 0)) as [f0|] eqn:Hf0; [|done].
    apply float_of_int_finite in Hf0.
    destruct (float_ge0 f0); [|done]. injection Ham as <-. naive_solver.
  - destruct (float_of_int z) as [f0|] eqn:Hf0; [|done].
    apply float_of_int_finite in Hf0.
    destruct (float_ge0 f0); [|done]. injection Ham as <-. naive_solver.
  - destruct (float_ge0 f0); [|done]. injection Ham as <-. naive_solver.
  - destruct (str_as_float s0) as [f0|] eqn:Hf0; [|done].
    destruct (float_ge0 f0); [|done]. injection Ham as <-. naive_solver.
Qed.

(** The document that a create stores renders exactly when its amount is
    finite. *)
Lemma created_document_renderable (item : ApprovalItemIn) (w : world) :
  doc_renderable
    (created_document (<["status" := VStr "pending"]> (model_dump item)) w) = true ↔
  ∀ f, amount item = Some f → is_finite f = true.
Proof.
  rewrite doc_renderable_fields.
  unfold doc_get, doc_get_default, created_document, model_dump. cbn [fields].
  destruct item as [t ds rq am]. cbn [title description requester amount].
  repeat (rewrite lookup_insert_eq || rewrite lookup_insert_ne by done).
  rewrite ?lookup_singleton_eq, ?lookup_singleton_ne by done.
  destruct ds, am; cbn; naive_solver.
Qed.

Lemma ApprovalItemIn_validate_fields (body : gmap string json) item :
  ApprovalItemIn_validate str_as_float body = Some item →
  body !! "title" = Some (JStr (title item)) ∧
  body !! "requester" = Some (JStr (requester item)).
Proof.
  unfold ApprovalItemIn_validate.
  destruct (validate_str (body !! "title")) as [t|] eqn:Ht; [|done].
  destruct (validate_optional_str (body !! "description")); [|done].
  destruct (validate_str (body !! "requester")) as [r|] eqn:Hr; [|done].
  destruct (validate_optional_float_ge0 _ _); [|done].
  intros [= <-]. cbn. by rewrite <- !validate_str_Some.
Qed.

(** The schema declares no [status]: whatever the caller puts under that
    key, validation gives the same item. *)
Lemma ApprovalItemIn_validate_ignores_status (body : gmap string json) v :
  ApprovalItemIn_validate str_as_float (<["status" := v]> body) =
  ApprovalItemIn_validate str_as_float body.
Proof.
  unfold ApprovalItemIn_validate. by rewrite !lookup_insert_ne by done.
Qed.

Lemma created_status_pending (data : gmap string value) (w : world) :
  let doc := created_document (<["status" := VStr "pending"]> data) w in
  fields doc !! "status" = Some (VStr "pending") ∧
  ∃ item, serialize_item (Some doc) = Some item ∧
          item !! "status" = Some (VStr "pending").
Proof.
  cbn. split; [by simplify_map_eq|].
  eexists. split; [done|].
  unfold doc_get_default. cbn. by simplify_map_eq.
Qed.

(** C1. Whenever the create route answers with a success status, that
    status is 201 and the returned item has status "pending"; the document
    it stored, the last of the collection, has status "pending" as well; and
    a [status] key supplied in the body changes nothing, the schema having
    no such field. *)
Theorem create_status_pending (body : gmap string json) (w w' : world)
    (c : Z) (r : option (gmap string value)) :
  post_approvals str_as_float body w = (Response c r, w') →
  c = 201 ∧
  (∀ v, post_approvals str_as_float (<["status" := v]> body) w =
        post_approvals str_as_float body w) ∧
  ∃ item doc d',
    r = Some item ∧ item !! "status" = Some (VStr "pending") ∧
    db w' = Some d' ∧ last (approvalitem d') = Some doc ∧
    fields doc !! "status" = Some (VStr "pending") ∧
    serialize_item (Some doc) = Some item.
Proof.
  intros H. split; [|split].
  - by apply serve_Response_inv in H as [-> _].
  - intros v. unfold post_approvals.
    by rewrite ApprovalItemIn_validate_ignores_status.
  - apply serve_Response_inv in H as (_ & H & _).
    destruct (ApprovalItemIn_validate str_as_float body) as [item|];
      [|by unfold_monad].
    destruct (create_approval_cases item w) as [(msg & w1 & E)|(d & Hd & Hu)].
    + by rewrite E in H.
    + rewrite (create_approval_ok item w d Hd Hu) in H. cbv zeta in H.
      injection H as <- <-.
      destruct (created_status_pending (model_dump item) w)
        as (Hst & it & Hser & Hit).
      eexists it, _, _. split; [done|]. split; [done|].
      split; [apply db_set_approvalitem; exact Hd|].
      cbn [approvalitem]. rewrite last_snoc. done.
Qed.

End Create.

Lemma create_status_pending_witness :
  ∃ item,
    (post_approvals no_numerals body_desk world_empty).1 = Response 201 (Some item) ∧
    item !! "status" = Some (VStr "pending").
Proof.
  destruct (post_approvals no_numerals body_desk world_empty) as [[c r|c e] w'] eqn:E.
  - destruct (create_status_pending _ _ _ _ _ _ E)
      as (-> & _ & item & doc & d' & -> & Hst & _).
    clear E. exists item. split; [reflexivity | exact Hst].
  - apply (f_equal (λ p, is_success p.1)) in E. vm_compute in E. discriminate E.
Defined.






(** ** Listing *)

Lemma ascii_compare_refl (a : ascii) : Ascii.compare a a = Eq.
Proof. unfold Ascii.compare. apply N.compare_refl. Qed.

Lemma string_compare_trans (s1 s2 s3 : string) :
  String.compare s1 s2 ≠ Gt → String.compare s2 s3 ≠ Gt →
  String.compare s1 s3 ≠ Gt.
Proof.
  revert s2 s3. induction s1 as [|a s1 IH]; intros [|b s2] [|c s3]; cbn; try done.
  destruct (Ascii.compare a b) eqn:Hab; [| |done];
    destruct (Ascii.compare b c) eqn:Hbc; try done.
  - apply Ascii.compare_eq_iff in Hab as ->. rewrite Hbc. apply IH.
  - apply Ascii.compare_eq_iff in Hab as ->. by rewrite Hbc.
  - apply Ascii.compare_eq_iff in Hbc as ->. by rewrite Hab.
  - unfold Ascii.compare in *. rewrite N.compare_lt_iff in Hab, Hbc.
    intros _ _. replace (N_of_ascii a ?= N_of_ascii c)%N with Lt; [done|].
    symmetry. apply N.compare_lt_iff. lia.
Qed.

Lemma string_leb_trans (s1 s2 s3 : string) :
  String.leb s1 s2 = true → String.leb s2 s3 = true → String.leb s1 s3 = true.
Proof.
  unfold String.leb. pose proof (string_compare_trans s1 s2 s3) as H.
  destruct (String.compare s1 s2), (String.compare s2 s3),
    (String.compare s1 s3); try done; intros _ _; exfalso; by apply H.
Qed.

Lemma float_leb_iff (x y : float) :
  float_leb x y = true ↔
  let '(a1, b1, c1) := float_key x in
  let '(a2, b2, c2) := float_key y in
  a1 < a2 ∨ (a1 = a2 ∧ (b1 < b2 ∨ (b1 = b2 ∧ c1 <= c2))).
Proof.
  unfold float_leb.
  destruct (float_key x) as [[a1 b1] c1], (float_key y) as [[a2 b2] c2].
  rewrite !orb_true_iff, !andb_true_iff, !orb_true_iff, !andb_true_iff,
    !Z.ltb_lt, !Z.eqb_eq, Z.leb_le. tauto.
Qed.

Lemma float_leb_total (x y : float) : float_leb x y = true ∨ float_leb y x = true.
Proof.
  rewrite !float_leb_iff.
  destruct (float_key x) as [[a1 b1] c1], (float_key y) as [[a2 b2] c2]. lia.
Qed.

Lemma float_leb_trans (x y z : float) :
  float_leb x y = true → float_leb y z = true → float_leb x z = true.
Proof.
  rewrite !float_leb_iff.
  destruct (float_key x) as [[a1 b1] c1], (float_key y) as [[a2 b2] c2],
    (float_key z) as [[a3 b3] c3]. lia.
Qed.

Lemma bson_leb_total (a b : value) : bson_leb a b = true ∨ bson_leb b a = true.
Proof.
  destruct a as [|x|x|x|x], b as [|y|y|y|y]; cbn; auto.
  - destruct x, y; auto.
  - apply float_leb_total.
  - apply String.leb_total.
  - rewrite !Z.leb_le. lia.
Qed.

Lemma bson_leb_trans (a b c : value) :
  bson_leb a b = true → bson_leb b c = true → bson_leb a c = true.
Proof.
  destruct a as [|x|x|x|x], b as [|y|y|y|y], c as [|z|z|z|z]; cbn; try done.
  - by destruct x, y, z.
  - apply float_leb_trans.
  - apply string_leb_trans.
  - rewrite !Z.leb_le. lia.
Qed.

Global Instance sorted_desc_total key : Total (sorted_desc key).
Proof.
  intros d1 d2. unfold sorted_desc. rewrite !Is_true_true.
  apply or_comm, bson_leb_total.
Qed.

Global Instance sorted_desc_trans key : Transitive (sorted_desc key).
Proof.
  intros d1 d2 d3. unfold sorted_desc. rewrite !Is_true_true.
  intros H12 H23. by apply (bson_leb_trans _ _ _ H23 H12).
Qed.

Lemma find_QStatus (s : string) (coll : list document) :
  find (QStatus s) coll = filter (has_status s) coll.
Proof.
  unfold find. induction coll as [|d coll IH]; [done|].
  cbn [List.filter]. rewrite filter_cons, IH.
  destruct (matches (QStatus s) d) eqn:E.
  - rewrite decide_True; [done|]. by apply matches_QStatus.
  - rewrite decide_False; [done|]. unfold has_status.
    rewrite <- matches_QStatus. congruence.
Qed.

Lemma list_approvals_status (s : string) (w : world) (d : Database) :
  db w = Some d → s ≠ "" →
  list_approvals (Some s) w =
  (Return ((λ x, serialize_item (Some x)) <$>
             sort_descending "created_at" (filter (has_status s) (approvalitem d))),
   w).
Proof.
  intros Hd Hs. unfold list_approvals.
  erewrite bind_Return by reflexivity. rewrite Hd.
  erewrite bind_Return by (by apply collection_Some).
  apply String.eqb_neq in Hs. rewrite Hs, find_QStatus. done.
Qed.

Lemma Query_status_valid (s : string) (w : world) :
  s ∈ ["pending"; "approved"; "rejected"] →
  Query_status (Some s) w = (Return (Some s), w).
Proof.
  intros Hs. cbn. replace (status_pattern s) with true; [done|].
  set_unfold in Hs. by destruct Hs as [->|[->|[->|[]]]].
Qed.

Lemma items_renderable (docs : list document) :
  forallb item_renderable ((λ x, serialize_item (Some x)) <$> docs) = true ↔
  Forall (λ x, doc_renderable x = true) docs.
Proof.
  induction docs as [|x docs IH]; [by split|].
  cbn [fmap list_fmap forallb]. rewrite andb_true_iff, Forall_cons, <- IH. done.
Qed.

(** C3. With a store behind it and for each of the three status values,
    the handler [list_approvals] returns the serialized documents [docs],
    which are the stored documents whose status is that value, each as often
    as it is stored, in descending order of [created_at]; none of them has
    another stored status. The route hands the handler the value it is given,
    and "pending" without the parameter, so that it then answers as for
    "pending"; and when every document of [docs] can be rendered as JSON, it
    answers 200 with that list. *)
Theorem list_approvals_filtered_sorted (w : world) (d : Database) (s : string) :
  db w = Some d → s ∈ ["pending"; "approved"; "rejected"] →
  ∃ docs,
    list_approvals (Some s) w =
      (Return ((λ x, serialize_item (Some x)) <$> docs), w) ∧
    docs ≡ₚ filter (has_status s) (approvalitem d) ∧
    StronglySorted (sorted_desc "created_at") docs ∧
    (∀ x, x ∈ docs ↔ x ∈ approvalitem d ∧ fields x !! "status" = Some (VStr s)) ∧
    Query_status (Some s) w = (Return (Some s), w) ∧
    Query_status None w = (Return (Some "pending"), w) ∧
    get_approvals None w = get_approvals (Some "pending") w ∧
    (Forall (λ x, doc_renderable x = true) docs →
     get_approvals (Some s) w =
       (Response 200 ((λ x, serialize_item (Some x)) <$> docs), w)).
Proof.
  intros Hd Hs.
  exists (sort_descending "created_at" (filter (has_status s) (approvalitem d))).
  assert (Hperm : sort_descending "created_at" (filter (has_status s) (approvalitem d))
                  ≡ₚ filter (has_status s) (approvalitem d))
    by apply merge_sort_Permutation.
  assert (Hne : s ≠ "").
  { set_unfold in Hs. by destruct Hs as [->|[->|[->|[]]]]. }
  split; [by apply list_approvals_status|].
  split; [done|]. split; [apply StronglySorted_merge_sort; apply _|].
  split.
  { intros x. rewrite Hperm, list_elem_of_filter. unfold has_status. tauto. }
  split; [by apply Query_status_valid|]. split; [done|]. split; [done|].
  intros Hall. unfold get_approvals.
  erewrite serve_Return.
  2:{ erewrite bind_Return by (by apply Query_status_valid).
      by apply list_approvals_status. }
  apply items_renderable in Hall. by rewrite Hall.
Qed.

Lemma list_approvals_filtered_sorted_witness :
  ∃ docs,
    list_approvals (Some "approved") world_three =
      (Return ((λ x, serialize_item (Some x)) <$> docs), world_three) ∧
    docs ≡ₚ filter (has_status "approved") [doc_a; doc_b; doc_c] ∧
    StronglySorted (sorted_desc "created_at") docs ∧
    (∀ x, x ∈ docs ↔
          x ∈ [doc_a; doc_b; doc_c] ∧ fields x !! "status" = Some (VStr "approved")) ∧
    Query_status (Some "approved") world_three = (Return (Some "approved"), world_three) ∧
    Query_status None world_three = (Return (Some "pending"), world_three) ∧
    get_approvals None world_three = get_approvals (Some "pending") world_three ∧
    (Forall (λ x, doc_renderable x = true) docs →
     get_approvals (Some "approved") world_three =
       (Response 200 ((λ x, serialize_item (Some x)) <$> docs), world_three)).
Proof.
  apply (list_approvals_filtered_sorted world_three db_three "approved").
  - reflexivity.
  - right. left.
Defined.

Example list_approved_newest_first :
  match (get_approvals (Some "approved") world_three).1 with
  | Response c l => Some (c, (λ item, item ≫= (.!! "id")) <$> l)
  | ErrorResponse _ _ => None
  end =
  Some (200, [Some (VStr "000000000000000000000002");
              Some (VStr "000000000000000000000000")]).
Proof. vm_compute. reflexivity. Qed.

(** ** Approving and rejecting *)

Lemma oid_Some {S} (item_id : string) (o : ObjectId) (s : S) :
  ObjectId_of_str item_id = Some o → oid item_id s = (Return o, s).
Proof. unfold oid. by intros ->. Qed.

Lemma oid_None {S} (item_id : string) (s : S) :
  ObjectId_of_str item_id = None →
  oid item_id s = (Raise (HTTPException 400 "Invalid ID format"), s).
Proof. unfold oid. by intros ->. Qed.

Lemma set_status_item_down (st item_id : string) (w : world) :
  db w = None →
  set_status_item st item_id w =
  (Raise (HTTPException 500 "Database not available"), w).
Proof.
  intros Hd. unfold set_status_item.
  erewrite bind_Return by reflexivity. by rewrite Hd.
Qed.

Lemma set_status_item_malformed (st item_id : string) (w : world) (d : Database) :
  db w = Some d → ObjectId_of_str item_id = None →
  set_status_item st item_id w =
  (Raise (HTTPException 400 "Invalid ID format"), w).
Proof.
  intros Hd Ho. unfold set_status_item.
  erewrite bind_Return by reflexivity. rewrite Hd.
  by erewrite bind_Raise by (by apply oid_None).
Qed.

Lemma collection_update_one_run q upd (w : world) (d : Database) :
  db w = Some d →
  collection_update_one q upd w =
  (Return (update_one q upd (approvalitem d)).1,
   set_approvalitem (update_one q upd (approvalitem d)).2 w).
Proof.
  intros Hd. unfold collection_update_one.
  erewrite bind_Return by (by apply collection_Some).
  by destruct (update_one q upd (approvalitem d)).
Qed.

Lemma set_status_item_missing (st item_id : string) (o : ObjectId)
    (w : world) (d : Database) :
  db w = Some d → ObjectId_of_str item_id = Some o →
  Forall (λ x, _id x ≠ o) (approvalitem d) →
  set_status_item st item_id w = (Raise (HTTPException 404 "Item not found"), w).
Proof.
  intros Hd Ho Hno. unfold set_status_item.
  erewrite bind_Return by reflexivity. rewrite Hd.
  erewrite bind_Return by (by apply oid_Some).
  erewrite bind_Return by reflexivity.
  erewrite bind_Return by (by apply collection_update_one_run).
  rewrite update_one_no_match.
  2:{ apply unused_no_match. by apply Forall_Exists_neg. }
  cbn. by rewrite set_approvalitem_same.
Qed.

Lemma find_one_updated (o : ObjectId) (coll : list document) (i : nat)
    (x x' : document) :
  coll !! i = Some x → _id x' = o →
  Forall (λ y, matches (QId o) y = false) (take i coll) →
  find_one (QId o) (<[i := x']> coll) = Some x'.
Proof.
  intros Hi Hx' Hpre. unfold find_one, find.
  rewrite <- (take_drop_middle coll i x Hi) at 1.
  assert (Hlen : length (take i coll) = i).
  { apply length_take_le. apply lookup_lt_Some in Hi. lia. }
  rewrite <- Hlen at 1. rewrite insert_app_r_alt by lia.
  rewrite Nat.sub_diag. cbn [list_insert]. rewrite List.filter_app.
  fold (find (QId o) (take i coll)). rewrite find_none by done.
  cbn. by rewrite bool_decide_eq_true_2.
Qed.

(** A successful update: the first document with the identifier is
    rewritten in place and read back. *)
Lemma set_status_item_found (st item_id : string) (o : ObjectId) (w : world)
    (d : Database) (i : nat) (x : document) :
  db w = Some d → ObjectId_of_str item_id = Some o →
  approvalitem d !! i = Some x → _id x = o →
  Forall (λ y, matches (QId o) y = false) (take i (approvalitem d)) →
  let x' := set_fields [("status", VStr st); ("updated_at", VDate (clock w))] x in
  set_status_item st item_id w =
  (Return (serialize_item (Some x')),
   set_approvalitem (<[i := x']> (approvalitem d)) w).
Proof.
  intros Hd Ho Hi Hx Hpre x'. unfold set_status_item.
  erewrite bind_Return by reflexivity. rewrite Hd.
  erewrite bind_Return by (by apply oid_Some).
  erewrite bind_Return by reflexivity.
  erewrite bind_Return by (by apply collection_update_one_run).
  assert (Hup : update_one (QId o)
                  [("status", VStr st); ("updated_at", VDate (clock w))]
                  (approvalitem d) = (1, <[i := x']> (approvalitem d))).
  { clear Hd. revert i Hi Hpre. induction (approvalitem d) as [|y l IH];
      intros [|i] Hi Hpre; try done.
    - cbn in Hi. injection Hi as ->. cbn.
      by rewrite (bool_decide_eq_true_2 _ Hx).
    - cbn in Hi, Hpre. apply Forall_cons in Hpre as [Hy Hpre].
      cbn [update_one matches]. rewrite Hy, (IH i Hi Hpre). done. }
  rewrite Hup. cbn [fst snd Z.eqb].
  erewrite bind_Return by (by apply oid_Some).
  erewrite bind_Return.
  2:{ apply collection_Some. by apply db_set_approvalitem. }
  cbn [approvalitem]. by rewrite (find_one_updated o _ i x x').
Qed.

Lemma no_match_iff (o : ObjectId) (coll : list document) :
  Forall (λ y, matches (QId o) y = false) coll ↔ Forall (λ y, _id y ≠ o) coll.
Proof.
  apply Forall_iff. intros y. rewrite <- matches_QId.
  by destruct (matches (QId o) y).
Qed.

(** The four ways [approve_item] and [reject_item] can go. *)
Lemma set_status_item_cases (st item_id : string) (w : world) :
  (db w = None ∧
   set_status_item st item_id w =
   (Raise (HTTPException 500 "Database not available"), w)) ∨
  (ObjectId_of_str item_id = None ∧
   set_status_item st item_id w =
   (Raise (HTTPException 400 "Invalid ID format"), w)) ∨
  (set_status_item st item_id w =
   (Raise (HTTPException 404 "Item not found"), w)) ∨
  (∃ d i x,
     db w = Some d ∧ approvalitem d !! i = Some x ∧
     ObjectId_of_str item_id = Some (_id x) ∧
     Forall (λ y, _id y ≠ _id x) (take i (approvalitem d)) ∧
     let x' := set_fields [("status", VStr st); ("updated_at", VDate (clock w))] x in
     set_status_item st item_id w =
     (Return (serialize_item (Some x')),
      set_approvalitem (<[i := x']> (approvalitem d)) w)).
Proof.
  destruct (db w) as [d|] eqn:Hd; [|left; split; [done|by apply set_status_item_down]].
  right. destruct (ObjectId_of_str item_id) as [o|] eqn:Ho;
    [|left; split; [done|by eapply set_status_item_malformed]].
  right.
  destruct (update_one_spec (QId o) [] (approvalitem d))
    as [[Hno _]|(i & x & Hi & Hx & Hpre & _)].
  - left. eapply set_status_item_missing; [done..|]. by apply no_match_iff.
  - right. apply matches_QId in Hx. exists d, i, x. subst o.
    repeat split; [done..|by apply no_match_iff|].
    by apply (set_status_item_found st item_id (_id x) w d i x).
Qed.

(** C4. With a store behind them, approve and reject answer 404 for a
    well-formed identifier that no stored document has, and leave the whole
    world, so every document of the collection, as it was. *)
Theorem approve_reject_not_found (item_id : string) (o : ObjectId)
    (w : world) (d : Database) :
  db w = Some d → ObjectId_of_str item_id = Some o →
  Forall (λ x, _id x ≠ o) (approvalitem d) →
  post_approve item_id w = (ErrorResponse 404 "Item not found", w) ∧
  post_reject item_id w = (ErrorResponse 404 "Item not found", w).
Proof.
  intros Hd Ho Hno. unfold post_approve, post_reject, approve_item, reject_item, serve.
  by rewrite !(set_status_item_missing _ item_id o w d).
Qed.

Lemma approve_reject_not_found_witness :
  post_approve "000000000000000000000007" world_three =
    (ErrorResponse 404 "Item not found", world_three) ∧
  post_reject "000000000000000000000007" world_three =
    (ErrorResponse 404 "Item not found", world_three).
Proof.
  apply (approve_reject_not_found _ (ObjectId_generate 7) world_three db_three).
  - reflexivity.
  - reflexivity.
  - repeat constructor; intros H; vm_compute in H; discriminate H.
Defined.

(** C5, as amended. With a store behind them, approve and reject answer 400
    for an identifier that does not parse, which is not the 404 of an
    identifier that parses and matches nothing, and leave the world as it
    was. *)
Theorem approve_reject_malformed_id (item_id : string) (w : world) (d : Database) :
  db w = Some d → ObjectId_of_str item_id = None →
  post_approve item_id w = (ErrorResponse 400 "Invalid ID format", w) ∧
  post_reject item_id w = (ErrorResponse 400 "Invalid ID format", w) ∧
  status_of (post_approve item_id w).1 ≠ 404 ∧
  status_of (post_reject item_id w).1 ≠ 404.
Proof.
  intros Hd Ho. unfold post_approve, post_reject, approve_item, reject_item, serve.
  by rewrite !(set_status_item_malformed _ item_id w d).
Qed.

Lemma approve_reject_malformed_id_witness :
  post_approve "not-an-id" world_three =
    (ErrorResponse 400 "Invalid ID format", world_three) ∧
  post_reject "not-an-id" world_three =
    (ErrorResponse 400 "Invalid ID format", world_three) ∧
  status_of (post_approve "not-an-id" world_three).1 ≠ 404 ∧
  status_of (post_reject "not-an-id" world_three).1 ≠ 404.
Proof.
  apply (approve_reject_malformed_id "not-an-id" world_three db_three);
    reflexivity.
Defined.

(** C5, as the specification words it, fails on the code: an identifier that
    does not parse gets 500, not 400, from approve and from reject when there
    is no store. *)
Lemma approve_reject_malformed_id_counterexample :
  ObjectId_of_str "not-an-id" = None ∧
  status_of (post_approve "not-an-id" world_down).1 = 500 ∧
  status_of (post_reject "not-an-id" world_down).1 = 500.
Proof. by vm_compute. Qed.

(** C10. Without a store, approve and reject answer 500 for every
    identifier string, whether it parses or not, so never 400. *)
Theorem approve_reject_store_check_first (item_id : string) (w : world) :
  db w = None →
  post_approve item_id w = (ErrorResponse 500 "Database not available", w) ∧
  post_reject item_id w = (ErrorResponse 500 "Database not available", w).
Proof.
  intros Hd. unfold post_approve, post_reject, approve_item, reject_item, serve.
  by rewrite !(set_status_item_down _ item_id w Hd).
Qed.

Lemma approve_reject_store_check_first_witness :
  post_approve "zz" world_down =
    (ErrorResponse 500 "Database not available", world_down) ∧
  post_reject "zz" world_down =
    (ErrorResponse 500 "Database not available", world_down).
Proof. apply (approve_reject_store_check_first "zz" world_down). reflexivity. Defined.

Lemma set_fields_status_updated_at (st : string) (t : Z) (x : document) :
  let x' := set_fields [("status", VStr st); ("updated_at", VDate t)] x in
  _id x' = _id x ∧
  fields x' !! "status" = Some (VStr st) ∧
  fields x' !! "updated_at" = Some (VDate t) ∧
  ∀ k, k ≠ "status" → k ≠ "updated_at" → fields x' !! k = fields x !! k.
Proof.
  cbn. repeat split; [by simplify_map_eq..|].
  intros k H1 H2. by simplify_map_eq.
Qed.

(** C6. When approve (or reject) succeeds, it is with 200, on a stored
    document [x] whose identifier is the one given, and the new collection is
    the old one with [x] replaced, at its place, by [x']: the same [_id], the
    status set to "approved" (or "rejected"), [updated_at] set to the time of
    the call, and every other field as in [x]; the documents at the other
    places, the number of documents and the rest of the world stay as they
    were; the answer is [x'] serialized. *)
Theorem approve_reject_frame (approve : bool) (item_id : string)
    (w w' : world) (c : Z) (r : option (gmap string value)) :
  (if approve then post_approve else post_reject) item_id w = (Response c r, w') →
  ∃ (d d' : Database) (i : nat) (x x' : document),
    c = 200 ∧ db w = Some d ∧ approvalitem d !! i = Some x ∧
    ObjectId_of_str item_id = Some (_id x) ∧
    w' = set_approvalitem (<[i := x']> (approvalitem d)) w ∧
    db w' = Some d' ∧ approvalitem d' = <[i := x']> (approvalitem d) ∧
    r = serialize_item (Some x') ∧
    _id x' = _id x ∧
    fields x' !! "status" = Some (VStr (if approve then "approved" else "rejected")) ∧
    fields x' !! "updated_at" = Some (VDate (clock w)) ∧
    (∀ k, k ≠ "status" → k ≠ "updated_at" → fields x' !! k = fields x !! k) ∧
    length (approvalitem d') = length (approvalitem d) ∧
    (∀ j, j ≠ i → approvalitem d' !! j = approvalitem d !! j).
Proof.
  set (st := if approve then "approved" else "rejected").
  intros H.
  assert (Hrun : serve item_renderable 200 (set_status_item st item_id) w =
                 (Response c r, w'))
    by (by destruct approve).
  clear H. apply serve_Response_inv in Hrun as (-> & Hrun & _).
  destruct (set_status_item_cases st item_id w)
    as [[_ E]|[[_ E]|[E|(d & i & x & Hd & Hi & Ho & _ & E)]]];
    cbv zeta in E; rewrite E in Hrun; try discriminate.
  injection Hrun as <- <-.
  destruct (set_fields_status_updated_at st (clock w) x) as (Hid & Hst & Hup & Hk).
  eexists d, _, i, x, _. split; [done|]. do 4 (split; [done|]).
  split; [by apply db_set_approvalitem|]. cbn [approvalitem].
  do 6 (split; [done|]). split; [by rewrite length_insert|].
  intros j Hj. by rewrite list_lookup_insert_ne.
Qed.

Lemma approve_reject_frame_witness :
  ∃ x',
    (post_approve "000000000000000000000001" world_three).1 =
      Response 200 (serialize_item (Some x')) ∧
    approvalitem <$> db (post_approve "000000000000000000000001" world_three).2 =
      Some [doc_a; x'; doc_c] ∧
    _id x' = _id doc_b ∧
    fields x' !! "status" = Some (VStr "approved") ∧
    fields x' !! "title" = fields doc_b !! "title".
Proof.
  destruct (post_approve "000000000000000000000001" world_three)
    as [[c r|c e] w'] eqn:E.
  - destruct (approve_reject_frame true _ _ _ _ _ E)
      as (d & d' & i & x & x' & -> & Hd & Hi & Ho & -> & Hd' & Hcoll & -> &
          Hid & Hst & _ & Hk & _ & _).
    clear E. cbn in Hd. injection Hd as <-.
    assert (i = 1%nat ∧ x = doc_b) as [-> ->].
    { destruct i as [|[|[|i]]]; cbn in Hi; try discriminate;
        injection Hi as <-; vm_compute in Ho; try discriminate. done. }
    exists x'. cbn [fst snd]. split; [done|]. rewrite Hd'. cbn [fmap option_fmap option_map].
    rewrite Hcoll. split; [done|]. split; [done|]. split; [done|].
    by apply Hk.
  - apply (f_equal (λ p, is_success p.1)) in E. vm_compute in E. discriminate E.
Defined.


(** ** Seeding *)

Lemma seed_data_present (w : world) (d : Database) :
  db w = Some d → approvalitem d ≠ [] →
  seed_data w = (Return (mkSeedResult 0 (Some "Data already present")), w).
Proof.
  intros Hd Hne. unfold seed_data.
  erewrite bind_Return by reflexivity. rewrite Hd.
  erewrite bind_Return by (by apply collection_Some).
  unfold count_documents, find. cbn [matches].
  destruct (approvalitem d) as [|x l]; [done|]. cbn [List.filter length].
  replace (0 <? Z.of_nat (S (length (List.filter (λ _, true) l))))%Z with true;
    [done|]. symmetry. apply Z.ltb_lt. lia.
Qed.

(** A run of insertions from the counter [c0 + k], into a collection whose
    identifiers were all drawn from [c0] up to there, stores one document for
    each dictionary, as long as the low byte of the counter does not come
    round. *)
Lemma for_each_create_document (c0 : N) (l : list (gmap string value)) :
  ∀ (k : N) (w : world) (d : Database),
    db w = Some d → oid_counter w = (c0 + k)%N →
    Forall (λ x, ∃ j, (j < k)%N ∧ _id x = ObjectId_generate (c0 + j)) (approvalitem d) →
    (k + N.of_nat (length l) < 256)%N →
    for_each l (λ s, create_document s;; mret tt) w =
    (Return tt,
     mkWorld (Some (mkDatabase (name d) (list_collection_names d)
                      (approvalitem d ++ stored_from (clock w) (c0 + k) l)))
       (DATABASE_URL w) (clock w) (c0 + k + N.of_nat (length l))).
Proof.
  induction l as [|data l IH]; intros k w d Hd Hc Hids Hk.
  - cbn. rewrite N.add_0_r, app_nil_r, <- Hc.
    destruct w, d. cbn in *. by subst.
  - assert (Hu : oid_unused w).
    { intros d' Hd'. rewrite Hd in Hd'. injection Hd' as <-.
      rewrite <- Forall_Exists_neg. eapply Forall_impl; [exact Hids|].
      intros x (j & Hj & Hx) Heq. rewrite Hx, Hc in Heq.
      replace (c0 + k)%N with (c0 + j + (k - j))%N in Heq by lia.
      revert Heq. apply ObjectId_generate_next_ne. lia. }
    assert (Hw1 : set_approvalitem (approvalitem d ++ [created_document data w])
                    (next_oid w) =
                  mkWorld (Some (mkDatabase (name d) (list_collection_names d)
                                   (approvalitem d ++ [created_document data w])))
                    (DATABASE_URL w) (clock w) (oid_counter w + 1)%N).
    { unfold set_approvalitem, next_oid. cbn. by rewrite Hd. }
    cbn [for_each]. erewrite bind_Return.
    2:{ erewrite bind_Return by (by apply create_document_ok). reflexivity. }
    rewrite Hw1.
    rewrite (IH (k + 1)%N _
               (mkDatabase (name d) (list_collection_names d)
                  (approvalitem d ++ [created_document data w]))).
    + cbn [name list_collection_names approvalitem clock DATABASE_URL
           stored_from].
      unfold created_document. rewrite Hc, <- app_assoc. cbn [app length].
      rewrite (N.add_assoc c0 k 1).
      replace (c0 + k + 1 + N.of_nat (length l))%N
        with (c0 + k + N.of_nat (S (length l)))%N by lia.
      done.
    + done.
    + cbn. lia.
    + cbn [approvalitem]. apply Forall_app. split.
      * eapply Forall_impl; [exact Hids|]. intros x (j & Hj & Hx).
        exists j. split; [lia|done].
      * apply Forall_singleton. exists k. split; [lia|].
        unfold created_document. cbn. by rewrite Hc.
    + cbn [length] in Hk. lia.
Qed.

Lemma seed_data_empty (w : world) (d : Database) :
  db w = Some d → approvalitem d = [] →
  seed_data w =
  (Return (mkSeedResult 4 None),
   mkWorld (Some (mkDatabase (name d) (list_collection_names d)
                    (stored_from (clock w) (oid_counter w) samples)))
     (DATABASE_URL w) (clock w) (oid_counter w + 4)%N).
Proof.
  intros Hd Hnil. unfold seed_data.
  erewrite bind_Return by reflexivity. rewrite Hd.
  erewrite bind_Return by (by apply collection_Some).
  rewrite Hnil. change (0 <? count_documents QAll [])%Z with false. cbv iota.
  erewrite bind_Return.
  2:{ apply (for_each_create_document (oid_counter w) samples 0 w d Hd).
      - by rewrite N.add_0_r.
      - rewrite Hnil. constructor.
      - cbn. lia. }
  rewrite Hnil, N.add_0_r. done.
Qed.

(** C7. With a store behind it, the seed route, on an empty collection,
    stores the four sample records, one document each, and reports
    [inserted = 4]; on a collection that is not empty it reports
    [inserted = 0] and changes nothing; so a second call right after the first
    reports 0 and leaves the four documents as they are. *)
Theorem seed_idempotent (w : world) (d : Database) :
  db w = Some d →
  (approvalitem d ≠ [] →
   post_seed w =
   (Response 200 (mkSeedResult 0 (Some "Data already present")), w)) ∧
  (approvalitem d = [] →
   ∃ w' d',
     post_seed w = (Response 200 (mkSeedResult 4 None), w') ∧
     db w' = Some d' ∧
     approvalitem d' = stored_from (clock w) (oid_counter w) samples ∧
     length (approvalitem d') = 4%nat ∧
     fields <$> approvalitem d' =
       (λ s, <["updated_at" := VDate (clock w)]> (<["created_at" := VDate (clock w)]> s))
         <$> samples ∧
     post_seed w' =
     (Response 200 (mkSeedResult 0 (Some "Data already present")), w')).
Proof.
  intros Hd. split.
  - intros Hne. unfold post_seed, serve. by rewrite (seed_data_present w d).
  - intros Hnil. eexists _, _. unfold post_seed, serve.
    rewrite (seed_data_empty w d Hd Hnil).
    split; [reflexivity|]. split; [reflexivity|]. cbn [approvalitem].
    split; [done|]. split; [done|]. split; [done|].
    erewrite seed_data_present; [done|reflexivity|done].
Qed.

Lemma seed_idempotent_witness :
  ∃ w' d',
    post_seed world_empty = (Response 200 (mkSeedResult 4 None), w') ∧
    db w' = Some d' ∧ length (approvalitem d') = 4%nat ∧
    post_seed w' =
    (Response 200 (mkSeedResult 0 (Some "Data already present")), w').
Proof.
  destruct (seed_idempotent world_empty empty_db eq_refl) as [_ H].
  destruct (H eq_refl) as (w' & d' & H1 & H2 & _ & H4 & _ & H6).
  exists w', d'. repeat split; assumption.
Defined.

(** ** Serialization *)

(** C8. [serialize_item] gives [None] for no document; for a stored
    document it gives a dictionary whose keys are exactly [id], [title],
    [description], [requester], [amount], [status], [created_at] and
    [updated_at]: [id] is the rendered identifier, [status] is the stored
    status or "pending" when the document has none, the other six are the
    stored fields or null, and [_id] and every other key are left out. *)
Theorem serialize_item_shape (doc : document) :
  serialize_item None = None ∧
  ∃ m,
    serialize_item (Some doc) = Some m ∧
    dom m = item_keys ∧
    m !! "id" = Some (VStr (ObjectId_str (_id doc))) ∧
    m !! "status" = Some (default (VStr "pending") (fields doc !! "status")) ∧
    (fields doc !! "status" = None → m !! "status" = Some (VStr "pending")) ∧
    (∀ k, k ∈ ["title"; "description"; "requester"; "amount";
               "created_at"; "updated_at"] →
          m !! k = Some (default VNone (fields doc !! k))) ∧
    m !! "_id" = None ∧
    (∀ k, k ∉ item_keys → m !! k = None).
Proof.
  split; [done|]. eexists. split; [reflexivity|].
  assert (Hdom : dom ({[ "id" := VStr (ObjectId_str (_id doc));
              "title" := doc_get doc "title";
              "description" := doc_get doc "description";
              "requester" := doc_get doc "requester";
              "amount" := doc_get doc "amount";
              "status" := doc_get_default doc "status" (VStr "pending");
              "created_at" := doc_get doc "created_at";
              "updated_at" := doc_get doc "updated_at" ]} : gmap string value)
          = item_keys).
  { unfold item_keys. rewrite !dom_insert_L, dom_singleton_L. set_solver. }
  split; [exact Hdom|].
  split; [by simplify_map_eq|]. split; [by simplify_map_eq|].
  split; [intros H; unfold doc_get_default; rewrite H; by simplify_map_eq|].
  split.
  - intros k Hk. unfold doc_get. set_unfold in Hk.
    destruct Hk as [->|[->|[->|[->|[->|[->|[]]]]]]]; by simplify_map_eq.
  - split; [by simplify_map_eq|]. intros k Hk. apply not_elem_of_dom.
    by rewrite Hdom.
Qed.

(** ** Diagnostics *)

(** C9. The diagnostics route answers 200 in every world and changes
    nothing; the answer lists at most 10 collections; without a store, and
    when listing the collections raises, the failure is a text in the field
    [database] and not a failed request. *)
Theorem test_database_always_200 (w : world) :
  ∃ r,
    get_test w = (Response 200 r, w) ∧
    (length (collections r) ≤ 10)%nat ∧
    backend r = "✅ Running" ∧
    (db w = None →
     database r = "⚠️ Available but not initialized" ∧ collections r = []) ∧
    (∀ d e, db w = Some d → list_collection_names d = Raise e →
            database r = "⚠️ Connected but Error: " +:+ str_prefix 50 (exn_str e) ∧
            collections r = []) ∧
    (∀ d l, db w = Some d → list_collection_names d = Return l →
            database r = "✅ Connected & Working" ∧ collections r = take 10 l).
Proof.
  unfold get_test, serve, test_database, test_database_body. unfold_monad.
  destruct (db w) as [d|] eqn:Hd.
  - destruct (list_collection_names d) as [l|e] eqn:Hl; cbn;
      eexists; (split; [reflexivity|]); cbn.
    + split; [rewrite length_take; lia|]. split; [done|]. split; [done|].
      split; [intros ? ? [= <-]; congruence|].
      intros ? ? [= <-]. rewrite Hl. by intros [= <-].
    + split; [lia|]. split; [done|]. split; [done|].
      split; [|intros ? ? [= <-]; congruence].
      intros ? ? [= <-]. rewrite Hl. by intros [= <-].
  - cbn. eexists. split; [reflexivity|]. cbn.
    split; [lia|]. by repeat split.
Qed.


(** * Further properties of the handlers *)

(** ** Identifiers on the wire *)

Lemma hexlify_inj (a b : bytes) : hexlify a = hexlify b → a = b.
Proof.
  intros H. apply (f_equal fromhex) in H. rewrite !fromhex_hexlify in H.
  by injection H.
Qed.

Lemma ObjectId_str_inj (o1 o2 : ObjectId) : ObjectId_str o1 = ObjectId_str o2 → o1 = o2.
Proof. destruct o1, o2. unfold ObjectId_str. cbn. by intros ->%hexlify_inj. Qed.

Lemma ObjectId_of_str_str (o : ObjectId) :
  String.length (binary o) = 12%nat → ObjectId_of_str (ObjectId_str o) = Some o.
Proof.
  intros H. unfold ObjectId_of_str, ObjectId_str.
  rewrite length_hexlify, H, fromhex_hexlify. by destruct o.
Qed.

(** X1. The [id] that [serialize_item] renders for a document with a
    12-byte identifier is a string of 24 characters that [oid] parses back
    to the identifier of the document. *)
Theorem oid_serialize_roundtrip (doc : document) (w : world) :
  String.length (binary (_id doc)) = 12%nat →
  ∃ m id_str,
    serialize_item (Some doc) = Some m ∧ m !! "id" = Some (VStr id_str) ∧
    String.length id_str = 24%nat ∧
    oid id_str w = (Return (_id doc), w).
Proof.
  intros H. eexists _, (ObjectId_str (_id doc)). split; [reflexivity|].
  split; [by simplify_map_eq|]. split.
  - unfold ObjectId_str. by rewrite length_hexlify, H.
  - apply oid_Some. by apply ObjectId_of_str_str.
Qed.

Lemma oid_serialize_roundtrip_witness :
  ∃ m id_str,
    serialize_item (Some doc_b) = Some m ∧ m !! "id" = Some (VStr id_str) ∧
    String.length id_str = 24%nat ∧
    oid id_str world_three = (Return (_id doc_b), world_three).
Proof. apply (oid_serialize_roundtrip doc_b world_three). reflexivity. Defined.

(** ** Approve and reject: every outcome *)

Lemma set_status_item_classify (st item_id : string) (w : world) :
  (db w = None ∧
   set_status_item st item_id w =
   (Raise (HTTPException 500 "Database not available"), w)) ∨
  (∃ d, db w = Some d ∧ ObjectId_of_str item_id = None ∧
   set_status_item st item_id w =
   (Raise (HTTPException 400 "Invalid ID format"), w)) ∨
  (∃ d o, db w = Some d ∧ ObjectId_of_str item_id = Some o ∧
   Forall (λ x, _id x ≠ o) (approvalitem d) ∧
   set_status_item st item_id w =
   (Raise (HTTPException 404 "Item not found"), w)) ∨
  (∃ d o i x,
     db w = Some d ∧ ObjectId_of_str item_id = Some o ∧
     approvalitem d !! i = Some x ∧ _id x = o ∧
     Forall (λ y, _id y ≠ o) (take i (approvalitem d)) ∧
     let x' := set_fields [("status", VStr st); ("updated_at", VDate (clock w))] x in
     set_status_item st item_id w =
     (Return (serialize_item (Some x')),
      set_approvalitem (<[i := x']> (approvalitem d)) w)).
Proof.
  destruct (db w) as [d|] eqn:Hd; [|left; split; [done|by apply set_status_item_down]].
  right. destruct (ObjectId_of_str item_id) as [o|] eqn:Ho.
  2:{ left. exists d. repeat split. by eapply set_status_item_malformed. }
  right.
  destruct (update_one_spec (QId o) [] (approvalitem d))
    as [[Hno _]|(i & x & Hi & Hx & Hpre & _)].
  - left. exists d, o. apply no_match_iff in Hno. repeat split; [done|].
    by eapply set_status_item_missing.
  - right. apply matches_QId in Hx. exists d, o, i, x.
    repeat split; [done..|by apply no_match_iff|].
    by apply (set_status_item_found st item_id o w d i x).
Qed.

Lemma first_with_id_unique (o : ObjectId) (coll : list document) i x i' x' :
  first_with_id o coll i x → first_with_id o coll i' x' → i = i' ∧ x = x'.
Proof.
  intros (Hi & Hx & Hpre) (Hi' & Hx' & Hpre').
  assert (i = i') as <-.
  { destruct (Nat.lt_total i i') as [Hlt|[->|Hlt]]; [exfalso| done |exfalso].
    - rewrite Forall_forall in Hpre'. apply (Hpre' x); [|done].
      apply list_elem_of_lookup. exists i. by rewrite lookup_take_lt.
    - rewrite Forall_forall in Hpre. apply (Hpre x'); [|done].
      apply list_elem_of_lookup. exists i'. by rewrite lookup_take_lt. }
  split; [done|]. congruence.
Qed.

(** X2. What approve and reject answer is settled by the store, the
    identifier and the collection: 400 exactly with a store and an identifier
    that does not parse; 404 exactly when the identifier parses and no stored
    document has it; 200 exactly when some stored document has it and the
    first such document, with the new status, can be rendered as JSON,
    whatever its status was; 500 exactly without a store, or when that
    document cannot be rendered. *)
Theorem approve_reject_status_classification (approve : bool)
    (item_id : string) (w : world) :
  let st := if approve then "approved" else "rejected" in
  let r := ((if approve then post_approve else post_reject) item_id w).1 in
  (status_of r = 400 ↔ is_Some (db w) ∧ ObjectId_of_str item_id = None) ∧
  (status_of r = 404 ↔
   ∃ d o, db w = Some d ∧ ObjectId_of_str item_id = Some o ∧
          Forall (λ x, _id x ≠ o) (approvalitem d)) ∧
  (status_of r = 200 ↔
   ∃ d o i x, db w = Some d ∧ ObjectId_of_str item_id = Some o ∧
              first_with_id o (approvalitem d) i x ∧
              doc_renderable (with_status st (clock w) x) = true) ∧
  (status_of r = 500 ↔
   db w = None ∨
   ∃ d o i x, db w = Some d ∧ ObjectId_of_str item_id = Some o ∧
              first_with_id o (approvalitem d) i x ∧
              doc_renderable (with_status st (clock w) x) = false) ∧
  (is_success r = true ↔ status_of r = 200).
Proof.
  set (st := if approve then "approved" else "rejected").
  assert (Hr : (if approve then post_approve else post_reject) item_id w =
               serve item_renderable 200 (set_status_item st item_id) w)
    by (by destruct approve).
  cbv zeta. rewrite Hr. clear Hr.
  destruct (set_status_item_classify st item_id w)
    as [[Hd E]|[(d & Hd & Ho & E)|[(d & o & Hd & Ho & Hno & E)|
        (d & o & i & x & Hd & Ho & Hi & Hx & Hpre & E)]]];
    cbv zeta in E.
  1-3: rewrite (serve_HTTPException _ _ _ _ _ _ _ E); cbn [fst status_of is_success].
  4: rewrite (serve_Return _ _ _ _ _ _ E);
     fold (with_status st (clock w) x);
     fold (doc_renderable (with_status st (clock w) x));
     destruct (doc_renderable (with_status st (clock w) x)) eqn:Hrn;
     cbn [fst status_of is_success].
  all: repeat match goal with |- _ ∧ _ => split end.
  all: split; intros HP.
  all: try discriminate HP.
  all: try reflexivity.
  all: try (exfalso;
            repeat match goal with
                  | H : ∃ _, _ |- _ => destruct H
                  | H : _ ∧ _ |- _ => destruct H
                  | H : _ ∨ _ |- _ => destruct H
                  | H : is_Some _ |- _ => destruct H
                  end; congruence).
  - by left.
  - split; [by eexists | exact Ho].
  - by exists d, o.
  - exfalso. destruct HP as (d' & o' & i' & x' & Hd' & Ho' & (Hi' & Hx' & _) & _).
    rewrite Hd in Hd'. rewrite Ho in Ho'. injection Hd' as <-. injection Ho' as <-.
    rewrite Forall_forall in Hno. apply (Hno x'); [|done].
    by eapply list_elem_of_lookup_2.
  - exfalso.
    destruct HP as [Hn|(d' & o' & i' & x' & Hd' & Ho' & (Hi' & Hx' & _) & _)];
      [congruence|].
    rewrite Hd in Hd'. rewrite Ho in Ho'. injection Hd' as <-. injection Ho' as <-.
    rewrite Forall_forall in Hno. apply (Hno x'); [|done].
    by eapply list_elem_of_lookup_2.
  - exfalso. destruct HP as (d' & o' & Hd' & Ho' & Hno).
    rewrite Hd in Hd'. rewrite Ho in Ho'. injection Hd' as <-. injection Ho' as <-.
    rewrite Forall_forall in Hno. apply (Hno x); [|done].
    by eapply list_elem_of_lookup_2.
  - exists d, o, i, x. split; [exact Hd|]. split; [exact Ho|].
    split; [repeat split; assumption | exact Hrn].
  - exfalso.
    destruct HP as [Hn|(d' & o' & i' & x' & Hd' & Ho' & Hf' & Hrn')]; [congruence|].
    rewrite Hd in Hd'. rewrite Ho in Ho'. injection Hd' as <-. injection Ho' as <-.
    destruct (first_with_id_unique o (approvalitem d) i x i' x') as [-> ->];
      [repeat split; assumption | exact Hf' |]. congruence.
  - exfalso. destruct HP as (d' & o' & Hd' & Ho' & Hno).
    rewrite Hd in Hd'. rewrite Ho in Ho'. injection Hd' as <-. injection Ho' as <-.
    rewrite Forall_forall in Hno. apply (Hno x); [|done].
    by eapply list_elem_of_lookup_2.
  - exfalso. destruct HP as (d' & o' & i' & x' & Hd' & Ho' & Hf' & Hrn').
    rewrite Hd in Hd'. rewrite Ho in Ho'. injection Hd' as <-. injection Ho' as <-.
    destruct (first_with_id_unique o (approvalitem d) i x i' x') as [-> ->];
      [repeat split; assumption | exact Hf' |]. congruence.
  - right. exists d, o, i, x. split; [exact Hd|]. split; [exact Ho|].
    split; [repeat split; assumption | exact Hrn].
Qed.

(** X3. Whenever approve or reject answers 400 or 404, or there is no
    store, the world, and so the collection, is exactly as it was. When they
    answer 500 with a store, the status was written before the answer failed:
    the world is the one with the first document of that identifier updated. *)
Theorem approve_reject_error_keeps_world (approve : bool) (item_id : string)
    (w : world) :
  let st := if approve then "approved" else "rejected" in
  let r := (if approve then post_approve else post_reject) item_id w in
  (status_of r.1 = 400 ∨ status_of r.1 = 404 ∨ db w = None → r.2 = w) ∧
  (status_of r.1 = 500 → ∀ d, db w = Some d →
   ∃ o i x, ObjectId_of_str item_id = Some o ∧
            first_with_id o (approvalitem d) i x ∧
            doc_renderable (with_status st (clock w) x) = false ∧
            r.2 = set_approvalitem
                    (<[i := with_status st (clock w) x]> (approvalitem d)) w).
Proof.
  set (st := if approve then "approved" else "rejected").
  assert (Hr : (if approve then post_approve else post_reject) item_id w =
               serve item_renderable 200 (set_status_item st item_id) w)
    by (by destruct approve).
  cbv zeta. rewrite Hr. clear Hr.
  destruct (set_status_item_classify st item_id w)
    as [[Hd E]|[(d & Hd & Ho & E)|[(d & o & Hd & Ho & Hno & E)|
        (d & o & i & x & Hd & Ho & Hi & Hx & Hpre & E)]]];
    cbv zeta in E.
  1-3: rewrite (serve_HTTPException _ _ _ _ _ _ _ E); cbn [fst snd status_of];
    split; [done|]; intros; congruence.
  rewrite (serve_Return _ _ _ _ _ _ E).
  fold (with_status st (clock w) x).
  fold (doc_renderable (with_status st (clock w) x)).
  destruct (doc_renderable (with_status st (clock w) x)) eqn:Hrn;
    cbn [fst snd status_of].
  - split; [intros [?|[?|?]]; congruence | done].
  - split; [intros [?|[?|?]]; congruence|].
    intros _ d' Hd'. rewrite Hd in Hd'. injection Hd' as <-.
    exists o, i, x. split; [exact Ho|].
    split; [repeat split; assumption|]. split; [exact Hrn | reflexivity].
Qed.

Lemma approve_reject_error_keeps_world_witness :
  (post_reject "000000000000000000000007" world_three).2 = world_three.
Proof.
  apply (approve_reject_error_keeps_world false "000000000000000000000007" world_three).
  right. left. by vm_compute.
Defined.

(** X4. Reject after approve: when approve succeeded on an identifier, a
    reject of the same identifier on the store it left, at any later time,
    succeeds as well; the document is then "rejected", its [updated_at] is the
    time of the reject, and its identifier and other fields are those it had
    before the approve. *)
Theorem approve_then_reject_last_write_wins (item_id : string)
    (w w1 w2 : world) (c : Z) (r : option (gmap string value)) :
  post_approve item_id w = (Response c r, w1) → db w2 = db w1 →
  ∃ d i x x2,
    db w = Some d ∧ approvalitem d !! i = Some x ∧
    ObjectId_of_str item_id = Some (_id x) ∧
    post_reject item_id w2 =
      (Response 200 (serialize_item (Some x2)),
       set_approvalitem (<[i := x2]> (approvalitem d)) w2) ∧
    _id x2 = _id x ∧
    fields x2 !! "status" = Some (VStr "rejected") ∧
    fields x2 !! "updated_at" = Some (VDate (clock w2)) ∧
    ∀ k, k ≠ "status" → k ≠ "updated_at" → fields x2 !! k = fields x !! k.
Proof.
  intros H Hdb. apply serve_Response_inv in H as (_ & H & Hrn).
  unfold approve_item in H.
  destruct (set_status_item_classify "approved" item_id w)
    as [[Hd E]|[(d & Hd & Ho & E)|[(d & o & Hd & Ho & Hno & E)|
        (d & o & i & x & Hd & Ho & Hi & Hx & Hpre & E)]]];
    cbv zeta in E; rewrite E in H; try discriminate.
  injection H as <- <-.
  fold (with_status "approved" (clock w) x) in *.
  fold (doc_renderable (with_status "approved" (clock w) x)) in Hrn.
  set (x1 := with_status "approved" (clock w) x) in *.
  rewrite (db_set_approvalitem _ w d Hd) in Hdb.
  assert (Hlt : (i < length (approvalitem d))%nat) by (by eapply lookup_lt_Some).
  pose proof (set_status_item_found "rejected" item_id o w2 _ i x1 Hdb Ho) as Hrej.
  cbn [approvalitem] in Hrej.
  rewrite take_insert_ge, list_insert_insert_eq in Hrej by lia.
  specialize (Hrej (list_lookup_insert_eq _ _ _ Hlt) Hx (proj2 (no_match_iff _ _) Hpre)).
  cbv zeta in Hrej. fold (with_status "rejected" (clock w2) x1) in Hrej.
  exists d, i, x, (with_status "rejected" (clock w2) x1).
  split; [exact Hd|]. split; [exact Hi|].
  split; [by rewrite Hx|].
  split.
  { unfold post_reject, reject_item. rewrite (serve_Return _ _ _ _ _ _ Hrej).
    fold (doc_renderable (with_status "rejected" (clock w2) x1)).
    by rewrite (with_status_again_renderable _ _ _ _ _ Hrn). }
  unfold x1, with_status, set_fields. cbn [fields foldl fst snd _id].
  split; [reflexivity|]. split; [by rewrite lookup_insert_ne, lookup_insert_eq|].
  split; [by rewrite lookup_insert_eq|].
  intros k H1 H2. by rewrite !lookup_insert_ne.
Qed.

Lemma approve_then_reject_last_write_wins_witness :
  ∃ x2,
    (post_reject "000000000000000000000001"
       (set_clock 200 (post_approve "000000000000000000000001" world_three).2)).1 =
      Response 200 (serialize_item (Some x2)) ∧
    fields x2 !! "status" = Some (VStr "rejected") ∧
    fields x2 !! "updated_at" = Some (VDate 200) ∧
    fields x2 !! "title" = fields doc_b !! "title".
Proof.
  destruct (post_approve "000000000000000000000001" world_three)
    as [[c r|c e] w1] eqn:E.
  - cbn [snd].
    destruct (approve_then_reject_last_write_wins _ _ _ (set_clock 200 w1) _ _ E eq_refl)
      as (d & i & x & x2 & Hd & Hi & Ho & -> & _ & Hst & Hup & Hk).
    clear E. cbn in Hd. injection Hd as <-.
    assert (x = doc_b) as ->.
    { destruct i as [|[|[|i]]]; cbn in Hi; try discriminate;
        injection Hi as <-; vm_compute in Ho; try discriminate. done. }
    exists x2. cbn [fst]. split; [done|]. split; [done|]. split; [done|].
    by apply Hk.
  - apply (f_equal (λ p, is_success p.1)) in E. vm_compute in E. discriminate E.
Defined.

(** ** Creation: every outcome *)

Lemma create_document_down (data : gmap string value) (w : world) :
  db w = None →
  create_document data w = (Raise (Exception "Database not available"), w).
Proof. intros Hd. unfold create_document. unfold_monad. by rewrite Hd. Qed.

Lemma create_document_in_use (data : gmap string value) (w : world) (d : Database) :
  db w = Some d →
  Exists (λ x, _id x = ObjectId_generate (oid_counter w)) (approvalitem d) →
  create_document data w = (Raise (Exception "DuplicateKeyError"), next_oid w).
Proof.
  intros Hd Hex. unfold create_document, insert_one, datetime_now. unfold_monad.
  rewrite Hd. by rewrite bool_decide_eq_true_2.
Qed.

Lemma db_next_oid (w : world) : db (next_oid w) = db w.
Proof. done. Qed.

(** The three ways [create_approval] can go. *)
Lemma create_approval_classify (item : ApprovalItemIn) (w : world) :
  (db w = None ∧ ∃ msg, create_approval item w = (Raise (Exception msg), w)) ∨
  (∃ d, db w = Some d ∧ ¬ oid_unused w ∧
        ∃ msg, create_approval item w = (Raise (Exception msg), next_oid w)) ∨
  (∃ d, db w = Some d ∧ oid_unused w ∧
        let doc := created_document (<["status" := VStr "pending"]> (model_dump item)) w in
        create_approval item w =
        (Return (serialize_item (Some doc)),
         set_approvalitem (approvalitem d ++ [doc]) (next_oid w))).
Proof.
  destruct (db w) as [d|] eqn:Hd.
  - right.
    destruct (decide (Exists (λ x, _id x = ObjectId_generate (oid_counter w))
                        (approvalitem d))) as [Hex|Hex].
    + left. exists d. split; [done|]. split.
      * intros Hu. by apply (Hu d Hd).
      * eexists. unfold create_approval.
        by erewrite bind_Raise by (by eapply create_document_in_use).
    + right. exists d. split; [done|].
      assert (Hu : oid_unused w).
      { intros d' Hd'. rewrite Hd in Hd'. by injection Hd' as <-. }
      split; [done|]. by apply create_approval_ok.
  - left. split; [done|]. eexists. unfold create_approval.
    by erewrite bind_Raise by (by apply create_document_down).
Qed.

Section CreateOutcomes.
Variable str_as_float : string → option float.

(** X5. What the create route answers is one of 201, 422 and 500: 201
    exactly for a body that meets the schema with a finite amount, with a
    store and an unused next identifier; 500 exactly for a body that meets the
    schema without a store, with the next identifier in use, or with an
    amount that is not finite. A 422 leaves the world as it was, and so does
    any request without a store. The collection changes exactly when the body
    meets the schema, the store is there and the identifier is unused: the
    new document is then stored, last, also when the answer is the 500 of an
    amount that cannot be rendered. *)
Theorem create_status_classification (body : gmap string json) (w : world) :
  let r := post_approvals str_as_float body w in
  (status_of r.1 = 201 ∨ status_of r.1 = 422 ∨ status_of r.1 = 500) ∧
  (status_of r.1 = 201 ↔
   schema_ok str_as_float body ∧ amount_finite str_as_float body ∧
   is_Some (db w) ∧ oid_unused w) ∧
  (status_of r.1 = 500 ↔
   schema_ok str_as_float body ∧
   (db w = None ∨ ¬ oid_unused w ∨ ¬ amount_finite str_as_float body)) ∧
  (status_of r.1 = 422 → r.2 = w) ∧
  (db w = None → r.2 = w) ∧
  (¬ (schema_ok str_as_float body ∧ is_Some (db w) ∧ oid_unused w) →
   approvalitem <$> db r.2 = approvalitem <$> db w) ∧
  (schema_ok str_as_float body → oid_unused w → ∀ d, db w = Some d →
   ∃ doc, approvalitem <$> db r.2 = Some (approvalitem d ++ [doc])).
Proof.
  cbv zeta. unfold post_approvals.
  destruct (ApprovalItemIn_validate str_as_float body) as [item|] eqn:Hv.
  - assert (Hs : schema_ok str_as_float body)
      by (apply ApprovalItemIn_validate_Some; by eexists).
    pose proof (ApprovalItemIn_validate_amount _ body item Hv) as Hfin.
    destruct (create_approval_classify item w)
      as [(Hd & msg & E)|[(d & Hd & Hu & msg & E)|(d & Hd & Hu & E)]];
      cbv zeta in E.
    + rewrite (serve_Exception _ _ _ _ _ _ E). cbn [fst snd status_of].
      split; [by right; right|]. split.
      { split; [done|]. intros (_ & _ & [? ?] & _). congruence. }
      split; [split; [intros _; split; [done|by left] | done]|].
      split; [done|]. split; [done|]. split; [done|].
      intros _ _ d Hd'. congruence.
    + rewrite (serve_Exception _ _ _ _ _ _ E). cbn [fst snd status_of].
      split; [by right; right|]. split.
      { split; [done|]. intros (_ & _ & _ & ?). done. }
      split; [split; [intros _; split; [done|right; by left] | done]|].
      split; [done|]. split; [intros; congruence|]. split; [done|].
      intros _ ?. done.
    + rewrite (serve_Return _ _ _ _ _ _ E).
      fold (doc_renderable
              (created_document (<["status" := VStr "pending"]> (model_dump item)) w)).
      pose proof (created_document_renderable str_as_float item w) as Hrn.
      rewrite <- Hfin in Hrn.
      assert (Hcoll : ∀ st : response (option (gmap string value)),
                approvalitem <$> db (st,
                  set_approvalitem
                    (approvalitem d ++
                     [created_document
                        (<["status" := VStr "pending"]> (model_dump item)) w])
                    (next_oid w)).2 =
                Some (approvalitem d ++
                      [created_document
                         (<["status" := VStr "pending"]> (model_dump item)) w])).
      { intros st. cbn [snd]. by rewrite (db_set_approvalitem _ (next_oid w) d Hd). }
      destruct (doc_renderable _) eqn:Hdr.
      * assert (Hf : amount_finite str_as_float body) by (apply Hrn; reflexivity).
        clear Hdr Hrn Hfin E. cbn [fst snd status_of].
        split; [left; reflexivity|].
        split.
        { split; [|reflexivity]. intros _.
          split; [exact Hs|]. split; [exact Hf|]. split; [by eexists|exact Hu]. }
        split.
        { split; [discriminate|]. intros (_ & [Hn|[Hn|Hn]]); [congruence|done|done]. }
        split; [discriminate|]. split; [intros; congruence|].
        split.
        { intros Hn. exfalso. apply Hn. split; [exact Hs|]. split; [by eexists|exact Hu]. }
        intros _ _ d' Hd'. rewrite Hd in Hd'. injection Hd' as <-.
        eexists. apply (Hcoll (Response 201 None)).
      * assert (Hf : ¬ amount_finite str_as_float body).
        { intros Hf. apply Hrn in Hf. congruence. }
        clear Hdr Hrn Hfin E. cbn [fst snd status_of].
        split; [right; right; reflexivity|].
        split.
        { split; [discriminate|]. intros (_ & Hf' & _). done. }
        split.
        { split; [|reflexivity]. intros _. split; [exact Hs|]. right; right; exact Hf. }
        split; [discriminate|]. split; [intros; congruence|].
        split.
        { intros Hn. exfalso. apply Hn. split; [exact Hs|]. split; [by eexists|exact Hu]. }
        intros _ _ d' Hd'. rewrite Hd in Hd'. injection Hd' as <-.
        eexists. apply (Hcoll (Response 201 None)).
  - assert (Hs : ¬ schema_ok str_as_float body).
    { rewrite <- ApprovalItemIn_validate_Some. intros [? ?]. congruence. }
    rewrite (serve_RequestValidationError _ _ _ w w) by done.
    cbn [fst snd status_of].
    split; [right; by left|]. split; [split; [done|intros (? & _); done]|].
    split; [split; [done|intros (? & _); done]|].
    split; [done|]. split; [done|]. split; [done|]. intros ?. done.
Qed.

(** X6. The item returned by a successful create echoes the body: [title]
    and [requester] are the strings sent; [description] is the string sent,
    or null when absent or null; [amount] is the float sent, the float
    nearest to the int sent, or null when absent or null; and [id] is the
    24-character rendering of the identifier under which the document was
    stored last in the collection. *)
Theorem created_item_echoes_body (body : gmap string json) (w w' : world)
    (c : Z) (r : option (gmap string value)) :
  post_approvals str_as_float body w = (Response c r, w') →
  ∃ item t rq id_str d' doc,
    r = Some item ∧
    body !! "title" = Some (JStr t) ∧ item !! "title" = Some (VStr t) ∧
    body !! "requester" = Some (JStr rq) ∧ item !! "requester" = Some (VStr rq) ∧
    ((body !! "description" = None ∨ body !! "description" = Some JNull) →
     item !! "description" = Some VNone) ∧
    (∀ s, body !! "description" = Some (JStr s) →
          item !! "description" = Some (VStr s)) ∧
    ((body !! "amount" = None ∨ body !! "amount" = Some JNull) →
     item !! "amount" = Some VNone) ∧
    (∀ f, body !! "amount" = Some (JFloat f) → item !! "amount" = Some (VNum f)) ∧
    (∀ z, body !! "amount" = Some (JInt z) →
          item !! "amount" = Some (VNum (float_of_Z z))) ∧
    item !! "id" = Some (VStr id_str) ∧ String.length id_str = 24%nat ∧
    db w' = Some d' ∧ last (approvalitem d') = Some doc ∧
    ObjectId_str (_id doc) = id_str ∧
    fields doc !! "title" = Some (VStr t) ∧
    fields doc !! "requester" = Some (VStr rq).
Proof.
  intros H. apply serve_Response_inv in H as (_ & H & _).
  destruct (ApprovalItemIn_validate str_as_float body) as [item|] eqn:Hv;
    [|by unfold_monad].
  destruct (create_approval_classify item w)
    as [(Hd & msg & E)|[(d & Hd & Hu & msg & E)|(d & Hd & Hu & E)]];
    cbv zeta in E; rewrite E in H; try discriminate.
  injection H as <- <-.
  destruct (ApprovalItemIn_validate_fields _ body item Hv) as [Ht Hr].
  unfold ApprovalItemIn_validate in Hv.
  destruct (validate_str (body !! "title")) as [t0|]; [|done].
  destruct (validate_optional_str (body !! "description")) as [ds|] eqn:Hds; [|done].
  destruct (validate_str (body !! "requester")) as [r0|]; [|done].
  destruct (validate_optional_float_ge0 _ (body !! "amount")) as [am|] eqn:Ham; [|done].
  injection Hv as <-. cbn [title requester] in Ht, Hr.
  eexists _, t0, r0, _, _, _. split; [reflexivity|].
  unfold model_dump, doc_get, doc_get_default, created_document.
  cbn [fields _id title description requester amount].
  split; [done|]. split; [by simplify_map_eq|].
  split; [done|]. split; [by simplify_map_eq|].
  split.
  { intros [Hn|Hn]; rewrite Hn in Hds; cbn in Hds; injection Hds as <-;
      by simplify_map_eq. }
  split.
  { intros s Hs. rewrite Hs in Hds. cbn in Hds. injection Hds as <-.
    by simplify_map_eq. }
  split.
  { intros [Hn|Hn]; rewrite Hn in Ham; cbn in Ham; injection Ham as <-;
      by simplify_map_eq. }
  split.
  { intros f Hf. rewrite Hf in Ham. cbn in Ham.
    destruct (float_ge0 f); [|done]. injection Ham as <-. by simplify_map_eq. }
  split.
  { intros z Hz. rewrite Hz in Ham. cbn [validate_optional_float_ge0 validate_float] in Ham.
    unfold float_of_int in Ham.
    destruct (is_finite (float_of_Z z)); [|done].
    destruct (float_ge0 (float_of_Z z)); [|done].
    injection Ham as <-. by simplify_map_eq. }
  split; [by simplify_map_eq|].
  split.
  { unfold ObjectId_str, ObjectId_generate. cbn [binary].
    by rewrite length_hexlify, length_big_endian. }
  split; [by apply db_set_approvalitem|]. cbn [approvalitem].
  rewrite last_snoc. split; [done|]. cbn [_id fields].
  split; [done|]. split; by simplify_map_eq.
Qed.

(** X7. A key that the schema does not declare changes nothing: with or
    without it in the body, the create route gives the same answer and
    leaves the same world. *)
Theorem create_ignores_undeclared_keys (body : gmap string json) (k : string)
    (v : json) (w : world) :
  k ∉ ["title"; "description"; "requester"; "amount"] →
  post_approvals str_as_float (<[k := v]> body) w =
  post_approvals str_as_float body w.
Proof.
  intros Hk. unfold post_approvals, ApprovalItemIn_validate.
  rewrite !lookup_insert_ne; [done|..]; intros ->; apply Hk; set_solver.
Qed.

(** X8. The bound on [amount] is 0 itself, compared as floats: for a body
    with string [title] and [requester], no [description] and a float
    [amount], the create route answers 422 exactly when the amount is not at
    least 0, which is when it is NaN, minus infinity or a negative number;
    both zeros and plus infinity pass. *)
Theorem create_amount_boundary (t rq : string) (f : float) (w : world) :
  let body : gmap string json :=
    {[ "title" := JStr t; "requester" := JStr rq; "amount" := JFloat f ]} in
  (status_of (post_approvals str_as_float body w).1 = 422 ↔ float_ge0 f = false) ∧
  (float_ge0 f = false ↔
   f = S754_nan ∨ f = S754_infinity true ∨ ∃ m e, f = S754_finite true m e).
Proof.
  cbv zeta. split.
  - assert (Hv : ApprovalItemIn_validate str_as_float
                   {[ "title" := JStr t; "requester" := JStr rq; "amount" := JFloat f ]} =
                 if float_ge0 f then Some (mkApprovalItemIn t None rq (Some f))
                 else None).
    { unfold ApprovalItemIn_validate.
      repeat (rewrite lookup_insert_eq || rewrite lookup_insert_ne by done).
      rewrite ?lookup_singleton_eq, ?lookup_singleton_ne by done.
      cbn [validate_str validate_optional_str validate_optional_float_ge0 validate_float].
      by destruct (float_ge0 f). }
    unfold post_approvals. rewrite Hv. clear Hv.
    destruct (float_ge0 f) eqn:Hq.
    + split; [|done]. intros H. exfalso.
      destruct (create_approval_classify (mkApprovalItemIn t None rq (Some f)) w)
        as [(Hd & msg & E)|[(d & Hd & Hu & msg & E)|(d & Hd & Hu & E)]];
        cbv zeta in E.
      * by rewrite (serve_Exception _ _ _ _ _ _ E) in H.
      * by rewrite (serve_Exception _ _ _ _ _ _ E) in H.
      * rewrite (serve_Return _ _ _ _ _ _ E) in H. by destruct (item_renderable _).
    + by rewrite (serve_RequestValidationError _ _ _ w w).
  - destruct f as [[]|[]| |[] m e]; cbn; split; try done.
    all: try (intros [?|[?|(? & ? & ?)]]; done).
    all: intros _; auto. right; right. by exists m, e.
Qed.
End CreateOutcomes.

Lemma created_item_echoes_body_witness :
  ∃ item,
    (post_approvals no_numerals body_desk world_three).1 = Response 201 (Some item) ∧
    item !! "title" = Some (VStr "Desk") ∧
    item !! "requester" = Some (VStr "Sam") ∧
    item !! "amount" = Some (VNum (float_of_Z 300)) ∧
    item !! "description" = Some VNone.
Proof.
  destruct (post_approvals no_numerals body_desk world_three) as [[c r|c e] w'] eqn:E.
  - destruct (created_item_echoes_body _ _ _ _ _ _ E)
      as (item & t & rq & id_str & d' & doc & -> & Ht & Hit & Hr & Hir & Hd1 & _ &
          _ & _ & Ha & _).
    assert (c = 201) as ->.
    { apply (f_equal (λ p, status_of p.1)) in E. by vm_compute in E. }
    clear E.
    vm_compute in Ht. injection Ht as <-. vm_compute in Hr. injection Hr as <-.
    exists item. split; [reflexivity|]. split; [exact Hit|]. split; [exact Hir|].
    split; [by apply Ha|]. apply Hd1. by left.
  - apply (f_equal (λ p, is_success p.1)) in E. vm_compute in E. discriminate E.
Defined.

(** An int beyond 2^53 is stored as the float nearest to it. *)
Example float_of_Z_rounds :
  float_of_Z 9007199254740993 = float_of_Z 9007199254740992.
Proof. by vm_compute. Qed.

Lemma create_ignores_undeclared_keys_witness :
  post_approvals no_numerals (<["status" := JStr "approved"]> body_empty_title)
    world_empty =
  post_approvals no_numerals body_empty_title world_empty.
Proof.
  apply (create_ignores_undeclared_keys no_numerals body_empty_title "status").
  set_solver.
Defined.

(** ** Creation followed by other requests *)

Lemma same_record_set_fields (st : string) (t : Z) (x : document) :
  same_record x (set_fields [("status", VStr st); ("updated_at", VDate t)] x).
Proof.
  split; [done|]. intros k H1 H2. cbn. by rewrite !lookup_insert_ne.
Qed.

(** Serialized, two states of one record differ at most in [status] and
    [updated_at]. *)
Lemma serialize_item_same_record (x x' : document) (m m' : gmap string value) :
  same_record x x' →
  serialize_item (Some x) = Some m → serialize_item (Some x') = Some m' →
  ∀ k, k ≠ "status" → k ≠ "updated_at" → m' !! k = m !! k.
Proof.
  intros [Hid Hk] [= <-] [= <-] k H1 H2. unfold doc_get. rewrite Hid.
  destruct (decide (k = "id")) as [->|]; [by simplify_map_eq|].
  destruct (decide (k = "title")) as [->|];
    [rewrite !lookup_insert_ne, !lookup_insert_eq by done; by rewrite Hk|].
  destruct (decide (k = "description")) as [->|];
    [rewrite !(lookup_insert_ne _ "id"), !(lookup_insert_ne _ "title"),
       !lookup_insert_eq by done; by rewrite Hk|].
  destruct (decide (k = "requester")) as [->|];
    [rewrite !(lookup_insert_ne _ "id"), !(lookup_insert_ne _ "title"),
       !(lookup_insert_ne _ "description"), !lookup_insert_eq by done;
     by rewrite Hk|].
  destruct (decide (k = "amount")) as [->|];
    [rewrite !(lookup_insert_ne _ "id"), !(lookup_insert_ne _ "title"),
       !(lookup_insert_ne _ "description"), !(lookup_insert_ne _ "requester"),
       !lookup_insert_eq by done; by rewrite Hk|].
  destruct (decide (k = "created_at")) as [->|];
    [rewrite !(lookup_insert_ne _ "id"), !(lookup_insert_ne _ "title"),
       !(lookup_insert_ne _ "description"), !(lookup_insert_ne _ "requester"),
       !(lookup_insert_ne _ "amount"), !(lookup_insert_ne _ "status"),
       !lookup_insert_eq by done; by rewrite Hk|].
  rewrite !lookup_insert_ne by done. by rewrite !lookup_singleton_ne.
Qed.

Section CreateThen.
Variable str_as_float : string → option float.

(** X9. An item that was just created can be approved under the [id] it
    was returned with: on the store that the create left, at any later time,
    approve of that [id] answers 200 with the same item but for its status,
    now "approved", and its [updated_at], now the time of the approve. *)
Theorem create_then_approve (body : gmap string json) (w w1 w2 : world)
    (c : Z) (r : option (gmap string value)) :
  post_approvals str_as_float body w = (Response c r, w1) → db w2 = db w1 →
  ∃ item id_str item' w2',
    r = Some item ∧ item !! "id" = Some (VStr id_str) ∧
    post_approve id_str w2 = (Response 200 (Some item'), w2') ∧
    item' !! "status" = Some (VStr "approved") ∧
    item' !! "updated_at" = Some (VDate (clock w2)) ∧
    ∀ k, k ≠ "status" → k ≠ "updated_at" → item' !! k = item !! k.
Proof.
  intros H Hdb. apply serve_Response_inv in H as (_ & H & Hrn).
  destruct (ApprovalItemIn_validate str_as_float body) as [it|];
    [|by unfold_monad].
  destruct (create_approval_classify it w)
    as [(Hd & msg & E)|[(d & Hd & Hu & msg & E)|(d & Hd & Hu & E)]];
    cbv zeta in E; rewrite E in H; try discriminate H.
  injection H as <- <-. clear E.
  set (doc := created_document (<["status" := VStr "pending"]> (model_dump it)) w) in *.
  fold (doc_renderable doc) in Hrn.
  assert (Hrn' : doc_renderable (with_status "approved" (clock w2) doc) = true).
  { apply with_status_renderable. apply doc_renderable_fields in Hrn.
    destruct Hrn as (H1 & H2 & H3 & H4 & _ & H5 & _).
    split; [exact H1|]. split; [exact H2|]. split; [exact H3|].
    split; [exact H4|exact H5]. }
  clear Hrn.
  rewrite (db_set_approvalitem _ (next_oid w) d Hd) in Hdb.
  pose proof (set_status_item_found "approved"
                (ObjectId_str (ObjectId_generate (oid_counter w)))
                (ObjectId_generate (oid_counter w)) w2 _
                (length (approvalitem d)) doc Hdb
                (ObjectId_of_str_generate _)) as Happ.
  cbn [approvalitem] in Happ. rewrite take_app_length in Happ.
  specialize (Happ (list_lookup_middle _ _ _ _ eq_refl) eq_refl
                (unused_no_match _ _ (Hu d Hd))).
  cbv zeta in Happ.
  fold (with_status "approved" (clock w2) doc) in Happ.
  exists (default ∅ (serialize_item (Some doc))),
         (ObjectId_str (ObjectId_generate (oid_counter w))),
         (default ∅ (serialize_item (Some (with_status "approved" (clock w2) doc)))).
  eexists.
  split; [reflexivity|].
  split; [cbn [serialize_item default]; apply lookup_insert_eq|].
  split.
  { unfold post_approve, approve_item.
    rewrite (serve_Return _ _ _ _ _ _ Happ).
    fold (doc_renderable (with_status "approved" (clock w2) doc)).
    rewrite Hrn'. reflexivity. }
  clear Hrn' Happ.
  split; [unfold doc_get_default; cbn; by simplify_map_eq|].
  split; [unfold doc_get; cbn; by simplify_map_eq|].
  apply (serialize_item_same_record doc (with_status "approved" (clock w2) doc));
    [apply same_record_set_fields | reflexivity | reflexivity].
Qed.

Lemma get_approvals_None (w : world) (l : list (option (gmap string value))) :
  list_approvals (Some "pending") w = (Return l, w) →
  get_approvals None w =
  if forallb item_renderable l then (Response 200 l, w)
  else (ErrorResponse 500 "Internal Server Error", w).
Proof.
  intros H. unfold get_approvals. apply serve_Return.
  erewrite bind_Return by reflexivity. exact H.
Qed.

(** X10. An item that was just created is in the default listing: on the
    store that the create left, a missing [status] parameter reads as
    "pending" and [list_approvals] returns, without changing the world, a
    list that holds the item as the create returned it. The list route
    without a parameter answers 200 with that list when every item of it can
    be rendered, and otherwise 500. *)
Theorem create_then_listed (body : gmap string json) (w w1 w2 : world)
    (c : Z) (r : option (gmap string value)) :
  post_approvals str_as_float body w = (Response c r, w1) → db w2 = db w1 →
  ∃ l, Query_status None w2 = (Return (Some "pending"), w2) ∧
       list_approvals (Some "pending") w2 = (Return l, w2) ∧ r ∈ l ∧
       (forallb item_renderable l = true →
        get_approvals None w2 = (Response 200 l, w2)) ∧
       (forallb item_renderable l = false →
        get_approvals None w2 = (ErrorResponse 500 "Internal Server Error", w2)).
Proof.
  intros H Hdb. apply serve_Response_inv in H as (_ & H & _).
  destruct (ApprovalItemIn_validate str_as_float body) as [it|];
    [|by unfold_monad].
  destruct (create_approval_classify it w)
    as [(Hd & msg & E)|[(d & Hd & Hu & msg & E)|(d & Hd & Hu & E)]];
    cbv zeta in E; rewrite E in H; try discriminate H.
  injection H as <- <-. clear E.
  set (doc := created_document (<["status" := VStr "pending"]> (model_dump it)) w) in *.
  rewrite (db_set_approvalitem _ (next_oid w) d Hd) in Hdb.
  pose proof (list_approvals_status "pending" w2 _ Hdb ltac:(discriminate)) as Hl.
  cbn [approvalitem] in Hl.
  eexists. split; [reflexivity|]. split; [exact Hl|]. split.
  - apply (list_elem_of_fmap_2 (λ x, serialize_item (Some x))).
    unfold sort_descending. rewrite merge_sort_Permutation.
    apply list_elem_of_filter. split.
    + unfold has_status, doc, created_document. cbn. by simplify_map_eq.
    + apply elem_of_app. right. by apply list_elem_of_singleton.
  - rewrite (get_approvals_None _ _ Hl). split; intros ->; reflexivity.
Qed.
End CreateThen.

Lemma create_then_approve_witness :
  ∃ item id_str item' w2',
    (post_approvals no_numerals body_desk world_three).1 = Response 201 (Some item) ∧
    item !! "id" = Some (VStr id_str) ∧
    post_approve id_str (set_clock 200 (post_approvals no_numerals body_desk world_three).2) =
      (Response 200 (Some item'), w2') ∧
    item' !! "status" = Some (VStr "approved") ∧
    item' !! "title" = item !! "title".
Proof.
  destruct (post_approvals no_numerals body_desk world_three) as [[c r|c e] w1] eqn:E.
  - destruct (create_then_approve _ _ _ _ (set_clock 200 w1) _ _ E eq_refl)
      as (item & id_str & item' & w2' & -> & Hid & Happ & Hst & _ & Hk).
    assert (c = 201) as ->.
    { apply (f_equal (λ p, status_of p.1)) in E. by vm_compute in E. }
    clear E.
    exists item, id_str, item', w2'. cbn [fst snd].
    split; [reflexivity|]. split; [exact Hid|]. split; [exact Happ|].
    split; [exact Hst|].
    apply Hk; discriminate.
  - apply (f_equal (λ p, is_success p.1)) in E. vm_compute in E. discriminate E.
Defined.

Lemma create_then_listed_witness :
  ∃ l,
    list_approvals (Some "pending")
      (post_approvals no_numerals body_desk world_three).2 =
      (Return l, (post_approvals no_numerals body_desk world_three).2) ∧
    match (post_approvals no_numerals body_desk world_three).1 with
    | Response _ r => r ∈ l
    | ErrorResponse _ _ => False
    end.
Proof.
  destruct (post_approvals no_numerals body_desk world_three) as [[c r|c e] w1] eqn:E.
  - cbn [fst snd].
    destruct (create_then_listed _ _ _ _ w1 _ _ E eq_refl) as (l & _ & Hl & Hr & _).
    exists l. split; [exact Hl|exact Hr].
  - apply (f_equal (λ p, is_success p.1)) in E. vm_compute in E. discriminate E.
Defined.

(** ** Listing: every outcome *)

Lemma status_pattern_true (s : string) :
  status_pattern s = true ↔ s ∈ ["pending"; "approved"; "rejected"].
Proof.
  unfold status_pattern. rewrite !orb_true_iff, !String.eqb_eq. set_solver.
Qed.

Lemma status_pattern_nonempty (s : string) : status_pattern s = true → s ≠ "".
Proof. by intros H ->. Qed.

(** The ways the list route can go. *)
Lemma get_approvals_classify (param : option string) (w : world) :
  (∃ s, param = Some s ∧ status_pattern s = false ∧
        get_approvals param w = (ErrorResponse 422 "Unprocessable Entity", w)) ∨
  (status_pattern (default "pending" param) = true ∧ db w = None ∧
   get_approvals param w = (ErrorResponse 500 "Database not available", w)) ∨
  (status_pattern (default "pending" param) = true ∧
   ∃ d, db w = Some d ∧
        let l := (λ x, serialize_item (Some x)) <$>
                   sort_descending "created_at"
                     (filter (has_status (default "pending" param)) (approvalitem d)) in
        get_approvals param w =
        if forallb item_renderable l then (Response 200 l, w)
        else (ErrorResponse 500 "Internal Server Error", w)).
Proof.
  assert (Hq : ∀ s, status_pattern s = true →
               param = Some s ∨ (param = None ∧ s = "pending") →
               Query_status param w = (Return (Some s), w)).
  { intros s Hs [->|[-> ->]]; cbn; [by rewrite Hs|done]. }
  destruct (status_pattern (default "pending" param)) eqn:Hp.
  - right.
    assert (Hq' : Query_status param w = (Return (Some (default "pending" param)), w)).
    { apply Hq; [done|]. destruct param; cbn; auto. }
    destruct (db w) as [d|] eqn:Hd.
    + right. split; [done|]. exists d. split; [done|]. cbv zeta.
      unfold get_approvals. apply serve_Return.
      erewrite bind_Return by exact Hq'.
      exact (list_approvals_status _ w d Hd (status_pattern_nonempty _ Hp)).
    + left. split; [done|]. split; [done|].
      unfold get_approvals. apply serve_HTTPException.
      erewrite bind_Return by exact Hq'. unfold list_approvals.
      erewrite bind_Return by reflexivity. by rewrite Hd.
  - left. destruct param as [s|]; [|done]. exists s. split; [done|]. split; [done|].
    unfold get_approvals. apply serve_RequestValidationError. cbn in Hp.
    by erewrite bind_Raise by (cbn; rewrite Hp; reflexivity).
Qed.

(** X11. The list route never changes the world, and what it answers is
    settled by the parameter and the store: 422 exactly for a parameter that
    is given and is none of the three status values, whether there is a store
    or not; otherwise 200 exactly when there is a store and every stored
    document with the status asked for can be rendered, and 500 exactly when
    there is no store or one of those documents cannot be rendered. *)
Theorem get_approvals_status_classification (param : option string) (w : world) :
  let r := get_approvals param w in
  r.2 = w ∧
  (status_of r.1 = 422 ↔
   ∃ s, param = Some s ∧ s ∉ ["pending"; "approved"; "rejected"]) ∧
  (status_of r.1 = 500 ↔
   default "pending" param ∈ ["pending"; "approved"; "rejected"] ∧
   (db w = None ∨
    ∃ d x, db w = Some d ∧ x ∈ approvalitem d ∧
           has_status (default "pending" param) x ∧ doc_renderable x = false)) ∧
  (status_of r.1 = 200 ↔
   default "pending" param ∈ ["pending"; "approved"; "rejected"] ∧
   ∃ d, db w = Some d ∧
        ∀ x, x ∈ approvalitem d → has_status (default "pending" param) x →
             doc_renderable x = true).
Proof.
  cbv zeta.
  destruct (get_approvals_classify param w)
    as [(s & -> & Hs & E)|[(Hp & Hd & E)|(Hp & d & Hd & E)]].
  - rewrite E. cbn [fst snd status_of default from_option id].
    assert (Hn : s ∉ ["pending"; "approved"; "rejected"])
      by (rewrite <- status_pattern_true; congruence).
    split; [reflexivity|]. split; [split; [intros _; by exists s | reflexivity]|].
    split; (split; [discriminate|intros [? _]; done]).
  - rewrite E. cbn [fst snd status_of]. apply status_pattern_true in Hp.
    split; [reflexivity|]. split.
    { split; [discriminate|]. intros (s & -> & Hn). done. }
    split; [split; [intros _; split; [exact Hp|by left] | reflexivity]|].
    split; [discriminate|]. intros (_ & d & Hd' & _). congruence.
  - cbv zeta in E. rewrite E. clear E.
    pose proof (items_renderable
                  (sort_descending "created_at"
                     (filter (has_status (default "pending" param)) (approvalitem d))))
      as Hrn.
    unfold sort_descending in Hrn at 2. rewrite merge_sort_Permutation in Hrn.
    rewrite Forall_forall in Hrn.
    assert (Hall : (∀ x, x ∈ filter (has_status (default "pending" param)) (approvalitem d) →
                         doc_renderable x = true) ↔
                   (∀ x, x ∈ approvalitem d → has_status (default "pending" param) x →
                         doc_renderable x = true)).
    { split.
      - intros H x Hx Hst. apply H, list_elem_of_filter. by split.
      - intros H x Hx. apply list_elem_of_filter in Hx as [Hst Hx]. by apply H. }
    rewrite Hall in Hrn. clear Hall.
    apply status_pattern_true in Hp.
    destruct (forallb item_renderable _); cbn [fst snd status_of].
    + assert (Hok : ∀ x, x ∈ approvalitem d → has_status (default "pending" param) x →
                         doc_renderable x = true) by (by apply Hrn).
      clear Hrn.
      split; [reflexivity|]. split.
      { split; [discriminate|]. intros (s & -> & Hn). done. }
      split.
      { split; [discriminate|]. intros (_ & [Hn|(d' & x & Hd' & Hx & Hst & Hf)]);
          [congruence|]. rewrite Hd in Hd'. injection Hd' as <-.
        rewrite (Hok x Hx Hst) in Hf. discriminate Hf. }
      split; [|reflexivity]. intros _. split; [exact Hp|]. exists d. by split.
    + assert (Hno : ¬ ∀ x, x ∈ approvalitem d → has_status (default "pending" param) x →
                           doc_renderable x = true).
      { intros H. apply Hrn in H. discriminate H. }
      clear Hrn.
      split; [reflexivity|]. split.
      { split; [discriminate|]. intros (s & -> & Hn). done. }
      split.
      { split; [|reflexivity]. intros _. split; [exact Hp|]. right.
        destruct (decide (Forall (λ x, has_status (default "pending" param) x →
                                       doc_renderable x = true) (approvalitem d)))
          as [Hf|Hf].
        - exfalso. apply Hno. intros x Hx. by apply (proj1 (Forall_forall _ _) Hf).
        - apply not_Forall_Exists in Hf; [|apply _].
          apply Exists_exists in Hf as (x & Hx & Hnx).
          change (¬ (has_status (default "pending" param) x →
                     doc_renderable x = true)) in Hnx.
          exists d, x. split; [exact Hd|]. split; [exact Hx|].
          destruct (decide (has_status (default "pending" param) x)) as [Hst|Hst];
            [|by exfalso; apply Hnx].
          split; [exact Hst|]. destruct (doc_renderable x); [|reflexivity].
          exfalso. by apply Hnx. }
      split; [discriminate|]. intros (_ & d' & Hd' & Hok).
      rewrite Hd in Hd'. injection Hd' as <-. done.
Qed.

(** X12. Every item that the list route returns carries the status that
    was asked for (or "pending" without a parameter), and the list is as long
    as there are stored documents with that status. *)
Theorem list_items_have_queried_status (param : option string) (w w' : world)
    (c : Z) (l : list (option (gmap string value))) :
  get_approvals param w = (Response c l, w') →
  ∃ d,
    db w = Some d ∧
    length l = length (filter (has_status (default "pending" param)) (approvalitem d)) ∧
    Forall (λ it, ∃ m, it = Some m ∧
                       m !! "status" = Some (VStr (default "pending" param))) l.
Proof.
  intros H.
  destruct (get_approvals_classify param w)
    as [(s & -> & Hs & E)|[(Hp & Hd & E)|(Hp & d & Hd & E)]];
    cbv zeta in E; rewrite E in H; clear E; try discriminate H.
  destruct (forallb item_renderable _); [|discriminate H].
  injection H as _ <- _. exists d. split; [done|]. split.
  - rewrite length_fmap. unfold sort_descending. by rewrite merge_sort_Permutation.
  - apply Forall_fmap, Forall_forall. intros x Hx.
    unfold sort_descending in Hx. rewrite merge_sort_Permutation in Hx.
    apply list_elem_of_filter in Hx as [Hx _]. unfold has_status in Hx.
    eexists. split; [reflexivity|]. unfold doc_get_default. rewrite Hx.
    by simplify_map_eq.
Qed.

Lemma list_items_have_queried_status_witness :
  ∃ l,
    (get_approvals (Some "approved") world_three).1 = Response 200 l ∧
    length l = 2%nat ∧
    Forall (λ it, ∃ m, it = Some m ∧ m !! "status" = Some (VStr "approved")) l.
Proof.
  destruct (get_approvals (Some "approved") world_three) as [[c l|c e] w'] eqn:E.
  - destruct (list_items_have_queried_status _ _ _ _ _ E) as (d & Hd & Hlen & Hall).
    cbn in Hd. injection Hd as <-.
    assert (c = 200) as ->.
    { apply (f_equal (λ p, status_of p.1)) in E. by vm_compute in E. }
    exists l. cbn [fst]. split; [done|]. split; [|done].
    rewrite Hlen. reflexivity.
  - apply (f_equal (λ p, is_success p.1)) in E. vm_compute in E. discriminate E.
Defined.

(** ** What no request does *)

Lemma same_record_refl (x : document) : same_record x x.
Proof. by split. Qed.

Lemma same_record_trans (x y z : document) :
  same_record x y → same_record y z → same_record x z.
Proof.
  intros [Hxy Hk] [Hyz Hk']. split; [congruence|].
  intros k H1 H2. by rewrite Hk', Hk.
Qed.

Lemma Forall2_same_record_refl (l : list document) : Forall2 same_record l l.
Proof. apply Forall_Forall2_diag, Forall_forall. intros. apply same_record_refl. Qed.

Lemma extends_refl (coll : list document) : extends coll coll.
Proof.
  exists coll, []. split; [by rewrite app_nil_r|]. apply Forall2_same_record_refl.
Qed.

Lemma extends_trans (a b c : list document) :
  extends a b → extends b c → extends a c.
Proof.
  intros (o1 & n1 & -> & H1) (o2 & n2 & -> & H2).
  apply Forall2_app_inv_l in H2 as (k1 & k2 & Hk1 & Hk2 & ->).
  exists k1, (k2 ++ n2). split; [by rewrite app_assoc|].
  eapply Forall2_trans; [|exact H1|exact Hk1]. apply same_record_trans.
Qed.

Lemma extends_app (coll new : list document) : extends coll (coll ++ new).
Proof. exists coll, new. split; [done|]. apply Forall2_same_record_refl. Qed.

Lemma extends_insert (coll : list document) (i : nat) (x x' : document) :
  coll !! i = Some x → same_record x x' → extends coll (<[i := x']> coll).
Proof.
  intros Hi Hx. exists (<[i := x']> coll), []. split; [by rewrite app_nil_r|].
  rewrite <- (list_insert_id coll i x Hi) at 1.
  apply Forall2_insert; [apply Forall2_same_record_refl|done].
Qed.

Lemma get_approvals_status_unchanged (param : option string) (w : world) :
  (get_approvals param w).2 = w ∧
  (db w = None →
   status_of (get_approvals param w).1 = 422 ∨
   status_of (get_approvals param w).1 = 500).
Proof.
  destruct (get_approvals_classify param w)
    as [(s & -> & Hs & E)|[(Hp & Hn & E)|(Hp & d0 & Hd0 & E)]].
  - rewrite E. split; [reflexivity|]. intros _. by left.
  - rewrite E. split; [reflexivity|]. intros _. by right.
  - cbv zeta in E. rewrite E. split; [|congruence].
    by destruct (forallb item_renderable _).
Qed.

Lemma get_test_world (w : world) : (get_test w).2 = w.
Proof.
  unfold get_test, serve, test_database, test_database_body. unfold_monad.
  destruct (db w) as [d|]; [|done]. by destruct (list_collection_names d).
Qed.

Lemma handle_world (str_as_float : string → option float) (rq : request) (w : world) :
  (handle str_as_float rq w).2 =
  match rq with
  | GetRoot => w
  | GetTest => (get_test w).2
  | GetApprovals param => (get_approvals param w).2
  | PostApprovals body => (post_approvals str_as_float body w).2
  | PostApprove item_id => (post_approve item_id w).2
  | PostReject item_id => (post_reject item_id w).2
  | PostSeed => (post_seed w).2
  end.
Proof.
  destruct rq; cbn; try done.
  - by destruct (get_test w).
  - by destruct (get_approvals param w).
  - by destruct (post_approvals str_as_float body w).
  - by destruct (post_approve item_id w).
  - by destruct (post_reject item_id w).
  - by destruct (post_seed w).
Qed.

Lemma status_valid_set_fields (st : string) (t : Z) (x : document) :
  st ∈ ["pending"; "approved"; "rejected"] →
  status_valid (set_fields [("status", VStr st); ("updated_at", VDate t)] x).
Proof. intros Hst. exists st. split; [done|]. cbn. by simplify_map_eq. Qed.

Lemma ids_insert_same (coll : list document) (i : nat) (x x' : document) :
  coll !! i = Some x → _id x' = _id x →
  _id <$> <[i := x']> coll = _id <$> coll.
Proof.
  intros Hi Hid. rewrite list_fmap_insert, Hid. apply list_insert_id.
  by rewrite list_lookup_fmap, Hi.
Qed.

Lemma samples_stored (t : Z) (c : N) :
  Forall status_valid (stored_from t c samples) ∧
  NoDup (_id <$> stored_from t c samples).
Proof.
  split.
  - unfold samples, sample. cbn [stored_from].
    repeat constructor; (exists "pending"; split; [set_solver|by simplify_map_eq]).
  - unfold samples. cbn [stored_from fmap list_fmap _id].
    replace (c + 1 + 1 + 1)%N with (c + 3)%N by lia.
    replace (c + 1 + 1)%N with (c + 2)%N by lia.
    pose proof (ObjectId_generate_next_ne c 1 ltac:(lia)).
    pose proof (ObjectId_generate_next_ne c 2 ltac:(lia)).
    pose proof (ObjectId_generate_next_ne c 3 ltac:(lia)).
    pose proof (ObjectId_generate_next_ne (c + 1) 1 ltac:(lia)) as H12.
    pose proof (ObjectId_generate_next_ne (c + 1) 2 ltac:(lia)) as H13.
    pose proof (ObjectId_generate_next_ne (c + 2) 1 ltac:(lia)) as H23.
    replace (c + 1 + 1)%N with (c + 2)%N in H12 by lia.
    replace (c + 1 + 2)%N with (c + 3)%N in H13 by lia.
    replace (c + 2 + 1)%N with (c + 3)%N in H23 by lia.
    repeat (apply NoDup_cons; split; [set_solver|]). apply NoDup_nil_2.
Qed.

(** One request, with a store: the store stays, under its name; every
    document stays at its place, up to status changes; valid statuses stay
    valid; identifiers stay distinct. *)
Lemma handle_step (str_as_float : string → option float) (rq : request)
    (w : world) (d : Database) :
  db w = Some d →
  ∃ d',
    db (handle str_as_float rq w).2 = Some d' ∧ name d' = name d ∧
    extends (approvalitem d) (approvalitem d') ∧
    (Forall status_valid (approvalitem d) → Forall status_valid (approvalitem d')) ∧
    (NoDup (_id <$> approvalitem d) → NoDup (_id <$> approvalitem d')).
Proof.
  intros Hd. rewrite handle_world.
  assert (Hsame : ∃ d', db w = Some d' ∧ name d' = name d ∧
            extends (approvalitem d) (approvalitem d') ∧
            (Forall status_valid (approvalitem d) →
             Forall status_valid (approvalitem d')) ∧
            (NoDup (_id <$> approvalitem d) → NoDup (_id <$> approvalitem d'))).
  { exists d. repeat split; auto using extends_refl. }
  assert (Hupd : ∀ st item_id, st ∈ ["pending"; "approved"; "rejected"] →
            ∃ d', db (set_status_item st item_id w).2 = Some d' ∧
              name d' = name d ∧
              extends (approvalitem d) (approvalitem d') ∧
              (Forall status_valid (approvalitem d) →
               Forall status_valid (approvalitem d')) ∧
              (NoDup (_id <$> approvalitem d) → NoDup (_id <$> approvalitem d'))).
  { intros st item_id Hst.
    destruct (set_status_item_classify st item_id w)
      as [[Hn E]|[(d0 & Hd0 & Ho & E)|[(d0 & o & Hd0 & Ho & Hno & E)|
          (d0 & o & i & x & Hd0 & Ho & Hi & Hx & Hpre & E)]]];
      cbv zeta in E; rewrite E; cbn [snd]; try done.
    rewrite Hd in Hd0. injection Hd0 as <-.
    eexists. split; [by apply db_set_approvalitem|]. cbn [name approvalitem].
    split; [done|]. split; [|split].
    - eapply extends_insert; [done|]. apply same_record_set_fields.
    - intros Hall. apply Forall_insert; [done|]. by apply status_valid_set_fields.
    - intros Hnd. by erewrite ids_insert_same. }
  destruct rq as [| |param|body|item_id|item_id|].
  - done.
  - by rewrite get_test_world.
  - by rewrite (proj1 (get_approvals_status_unchanged param w)).
  - unfold post_approvals. rewrite serve_world.
    destruct (ApprovalItemIn_validate str_as_float body) as [it|];
      [|by unfold_monad].
    destruct (create_approval_classify it w)
      as [(Hn & msg & E)|[(d0 & Hd0 & Hu & msg & E)|(d0 & Hd0 & Hu & E)]];
      cbv zeta in E; rewrite E; cbn [snd]; try done.
    rewrite Hd in Hd0. injection Hd0 as <-.
    eexists. split; [by apply db_set_approvalitem|]. cbn [name approvalitem].
    split; [done|]. split; [apply extends_app|]. split.
    + intros Hall. apply Forall_app. split; [done|]. apply Forall_singleton.
      exists "pending". split; [set_solver|]. cbn. by simplify_map_eq.
    + intros Hnd. rewrite fmap_app. apply NoDup_app. split; [done|].
      split; [|apply NoDup_singleton].
      intros o Ho Ho'. apply list_elem_of_singleton in Ho'. subst o.
      apply (Hu d Hd). apply list_elem_of_fmap in Ho as (x & Hx & Hin).
      apply Exists_exists. exists x. split; [done|]. exact (eq_sym Hx).
  - unfold post_approve, approve_item. rewrite serve_world. apply Hupd. set_solver.
  - unfold post_reject, reject_item. rewrite serve_world. apply Hupd. set_solver.
  - unfold post_seed. rewrite serve_world.
    destruct (approvalitem d) as [|x l] eqn:Hcoll.
    + rewrite (seed_data_empty w d Hd Hcoll). cbn [snd db name approvalitem].
      eexists. split; [reflexivity|]. cbn [name approvalitem].
      split; [done|]. split; [apply (extends_app [])|].
      destruct (samples_stored (clock w) (oid_counter w)). by split.
    + rewrite (seed_data_present w d Hd) by (by rewrite Hcoll). cbn [snd].
      exact Hsame.
Qed.

Lemma db_set_clock (t : Z) (w : world) : db (set_clock t w) = db w.
Proof. done. Qed.

(** X13. Nothing is ever deleted or rewritten: after any run of requests
    on a store, the store is still there under its name, and every document
    it held is still at its place with the identifier and the fields it had,
    but for [status] and [updated_at]; what the run added comes after them. *)
Theorem run_keeps_records (str_as_float : string → option float)
    (rqs : list (Z * request)) (w : world) (d : Database) :
  db w = Some d →
  ∃ d', db (run str_as_float rqs w) = Some d' ∧ name d' = name d ∧
        extends (approvalitem d) (approvalitem d').
Proof.
  revert w d. induction rqs as [|[t rq] rqs IH]; intros w d Hd.
  - exists d. auto using extends_refl.
  - cbn [run].
    destruct (handle_step str_as_float rq (set_clock t w) d Hd)
      as (d1 & Hd1 & Hn1 & He1 & _).
    destruct (IH _ d1 Hd1) as (d2 & Hd2 & Hn2 & He2).
    exists d2. split; [done|]. split; [congruence|]. by eapply extends_trans.
Qed.

(** X14. The status of a stored document stays one of "pending",
    "approved" and "rejected": when every document of the collection has such
    a status, so has every document after any run of requests. *)
Theorem run_keeps_status_valid (str_as_float : string → option float)
    (rqs : list (Z * request)) (w : world) (d : Database) :
  db w = Some d → Forall status_valid (approvalitem d) →
  ∃ d', db (run str_as_float rqs w) = Some d' ∧
        Forall status_valid (approvalitem d').
Proof.
  revert w d. induction rqs as [|[t rq] rqs IH]; intros w d Hd Hall.
  - by exists d.
  - cbn [run].
    destruct (handle_step str_as_float rq (set_clock t w) d Hd)
      as (d1 & Hd1 & _ & _ & Hs1 & _).
    by apply (IH _ d1 Hd1), Hs1.
Qed.

(** X15. Identifiers stay distinct: when no two documents of the
    collection share an [_id], no two do after any run of requests. *)
Theorem run_keeps_ids_distinct (str_as_float : string → option float)
    (rqs : list (Z * request)) (w : world) (d : Database) :
  db w = Some d → NoDup (_id <$> approvalitem d) →
  ∃ d', db (run str_as_float rqs w) = Some d' ∧
        NoDup (_id <$> approvalitem d').
Proof.
  revert w d. induction rqs as [|[t rq] rqs IH]; intros w d Hd Hnd.
  - by exists d.
  - cbn [run].
    destruct (handle_step str_as_float rq (set_clock t w) d Hd)
      as (d1 & Hd1 & _ & _ & _ & Hn1).
    by apply (IH _ d1 Hd1), Hn1.
Qed.

(** X16. Without a store no request changes anything, and only the two
    routes that need no store succeed: the health and diagnostics routes
    answer 200, the list and create routes answer 422 or 500, and approve,
    reject and seed answer 500. *)
Theorem handle_without_store (str_as_float : string → option float) (rq : request)
    (w : world) :
  db w = None →
  (handle str_as_float rq w).2 = w ∧
  match rq with
  | GetRoot | GetTest => (handle str_as_float rq w).1 = 200
  | GetApprovals _ | PostApprovals _ =>
      (handle str_as_float rq w).1 = 422 ∨ (handle str_as_float rq w).1 = 500
  | PostApprove _ | PostReject _ | PostSeed => (handle str_as_float rq w).1 = 500
  end.
Proof.
  intros Hd. destruct rq as [| |param|body|item_id|item_id|]; cbn [handle].
  - done.
  - unfold get_test, serve, test_database, test_database_body. unfold_monad.
    by rewrite Hd.
  - destruct (get_approvals_status_unchanged param w) as [Hw Hs].
    specialize (Hs Hd). destruct (get_approvals param w) as [r w']. by split.
  - unfold post_approvals.
    destruct (ApprovalItemIn_validate str_as_float body) as [it|].
    + destruct (create_approval_classify it w)
        as [(Hn & msg & E)|[(d0 & Hd0 & Hu & msg & E)|(d0 & Hd0 & Hu & E)]];
        [|congruence..].
      rewrite (serve_Exception _ _ _ _ _ _ E). cbn. auto.
    + rewrite (serve_RequestValidationError _ _ _ w w) by done. cbn. auto.
  - unfold post_approve, approve_item.
    by rewrite (serve_HTTPException _ _ _ _ _ _ _ (set_status_item_down _ _ _ Hd)).
  - unfold post_reject, reject_item.
    by rewrite (serve_HTTPException _ _ _ _ _ _ _ (set_status_item_down _ _ _ Hd)).
  - unfold post_seed, serve, seed_data. unfold_monad. by rewrite Hd.
Qed.

Lemma run_keeps_records_witness :
  ∃ d', db (run no_numerals run_example world_three) = Some d' ∧
        name d' = name db_three ∧
        extends (approvalitem db_three) (approvalitem d').
Proof. apply (run_keeps_records no_numerals run_example world_three db_three). reflexivity. Defined.

Lemma db_three_status_valid : Forall status_valid (approvalitem db_three).
Proof.
  repeat constructor.
  - exists "approved". split; [|reflexivity]. apply list_elem_of_further, list_elem_of_here.
  - exists "pending". split; [|reflexivity]. apply list_elem_of_here.
  - exists "approved". split; [|reflexivity]. apply list_elem_of_further, list_elem_of_here.
Qed.

Lemma run_keeps_status_valid_witness :
  ∃ d', db (run no_numerals run_example world_three) = Some d' ∧
        Forall status_valid (approvalitem d').
Proof.
  apply (run_keeps_status_valid no_numerals run_example world_three db_three).
  - reflexivity.
  - exact db_three_status_valid.
Defined.

Lemma db_three_ids_distinct : NoDup (_id <$> approvalitem db_three).
Proof.
  apply (bool_decide_unpack (NoDup (_id <$> approvalitem db_three))).
  by vm_compute.
Qed.

Lemma run_keeps_ids_distinct_witness :
  ∃ d', db (run no_numerals run_example world_three) = Some d' ∧
        NoDup (_id <$> approvalitem d').
Proof.
  apply (run_keeps_ids_distinct no_numerals run_example world_three db_three).
  - reflexivity.
  - exact db_three_ids_distinct.
Defined.

Lemma handle_without_store_witness :
  (handle no_numerals PostSeed world_down).2 = world_down ∧
  (handle no_numerals PostSeed world_down).1 = 500.
Proof. apply (handle_without_store no_numerals PostSeed world_down). reflexivity. Defined.

(** ** Diagnostics: what is reported of a failure *)

Lemma str_prefix_prefix (n : nat) (s : string) :
  String.prefix (str_prefix n s) s = true.
Proof.
  revert n. induction s as [|c s IH]; intros n; [done|]. cbn [str_prefix].
  destruct (is_continuation c).
  - cbn. destruct (ascii_dec c c); [apply IH|done].
  - destruct n as [|n]; [done|]. cbn. destruct (ascii_dec c c); [apply IH|done].
Qed.

Lemma str_len_str_prefix (n : nat) (s : string) :
  str_len (str_prefix n s) = (n `min` str_len s)%nat.
Proof.
  revert n. induction s as [|c s IH]; intros n; [by destruct n|].
  cbn [str_prefix str_len]. destruct (is_continuation c) eqn:Hc.
  - cbn [str_len]. rewrite Hc. apply IH.
  - destruct n as [|n]; [done|]. cbn [str_len]. rewrite Hc, IH. done.
Qed.

(** The cut falls between two characters: what is left does not start
    inside one. *)
Lemma str_prefix_rest (n : nat) (s : string) :
  ∃ rest, s = str_prefix n s +:+ rest ∧
          match rest with
          | String c _ => is_continuation c = false
          | EmptyString => True
          end.
Proof.
  revert n. induction s as [|c s IH]; intros n; [by exists ""|].
  cbn [str_prefix]. destruct (is_continuation c) eqn:Hc.
  - destruct (IH n) as (rest & Hs & Hr). exists rest.
    split; [|exact Hr]. rewrite append_cons. by rewrite <- Hs.
  - destruct n as [|n].
    + exists (String c s). split; [by rewrite append_nil_l|exact Hc].
    + destruct (IH n) as (rest & Hs & Hr). exists rest.
      split; [|exact Hr]. rewrite append_cons. by rewrite <- Hs.
Qed.

(** X17. When the store is connected and listing its collections raises,
    the diagnostics route still answers 200: what it set before the failure
    stays ([connection_status] is "Connected" and [database_name] is the name
    of the store), no collection is listed, and [database] ends in the first
    50 characters of the error text, or all of it when it has fewer: a prefix
    of the text, cut between two characters and not inside one, with a
    string read as the UTF-8 bytes of its characters. *)
Theorem test_database_error_truncated (w : world) (d : Database) (e : exn) :
  db w = Some d → list_collection_names d = Raise e →
  ∃ r p,
    get_test w = (Response 200 r, w) ∧
    database r = "⚠️ Connected but Error: " +:+ p ∧
    String.prefix p (exn_str e) = true ∧
    str_len p = (50 `min` str_len (exn_str e))%nat ∧
    (∃ rest, exn_str e = p +:+ rest ∧
             match rest with
             | String c _ => is_continuation c = false
             | EmptyString => True
             end) ∧
    connection_status r = "Connected" ∧
    database_name r = Some (name d) ∧
    collections r = [].
Proof.
  intros Hd He. eexists _, (str_prefix 50 (exn_str e)).
  split.
  - unfold get_test, serve, test_database, test_database_body. unfold_monad.
    rewrite Hd, He. reflexivity.
  - cbn. split; [done|]. split; [apply str_prefix_prefix|].
    split; [apply str_len_str_prefix|]. split; [apply str_prefix_rest|]. done.
Qed.

Lemma test_database_error_truncated_witness :
  ∃ r p,
    get_test world_broken = (Response 200 r, world_broken) ∧
    database r = "⚠️ Connected but Error: " +:+ p ∧
    String.prefix p
      "not authorized on appdb to execute command { listCollections: 1, filter: {} }"
      = true ∧
    str_len p = 50%nat ∧
    connection_status r = "Connected" ∧
    database_name r = Some "appdb" ∧
    collections r = [].
Proof.
  destruct (test_database_error_truncated world_broken db_broken _ eq_refl eq_refl)
    as (r & p & H1 & H2 & H3 & H4 & _ & H5 & H6 & H7).
  exists r, p. split; [exact H1|]. split; [exact H2|]. split; [exact H3|].
  split; [exact H4|]. split; [exact H5|]. split; [exact H6|exact H7].
Defined.

(** Characters, not bytes, are counted: of fifty-one two-byte characters
    the first fifty are kept, a hundred bytes. *)
Example str_prefix_characters :
  let s := String.concat "" (replicate 51 "é") in
  String.length s = 102%nat ∧ str_len s = 51%nat ∧
  String.length (str_prefix 50 s) = 100%nat ∧ str_len (str_prefix 50 s) = 50%nat.
Proof. by vm_compute. Qed.
